(** * plex: a rule-driven regex lexer (plex/lexer.py)

    A shallow embedding of [plex.lexer] and the properties of its
    match-select-advance loop.

    Conventions of the embedding:
    - a Python [str] is a [list ascii]; an [int] is a [Z];
    - the regular-expression engine is outside the module: a compiled
      pattern is a function giving, for a subject string and a start
      offset, the match object of the anchored match, if any;
    - a method that mutates [self] takes the instance and returns the
      updated instance together with its result or the exception raised
      (the instance keeps the updates made before a [raise]);
    - the dict [_rules] is an association list in insertion order. *)

From Stdlib Require Import ZArith List String Ascii Bool Lia DecimalString.
Import ListNotations.
Open Scope Z_scope.

(** ** Python strings *)

Definition str := list ascii.

Definition lit (s : string) : str := list_ascii_of_string s.

Definition newline : ascii := ascii_of_nat 10.
Definition space : ascii := ascii_of_nat 32.

Definition len {A : Type} (s : list A) : Z := Z.of_nat (List.length s).

Fixpoint str_eqb (a b : str) : bool :=
  match a, b with
  | [], [] => true
  | x :: a', y :: b' => Ascii.eqb x y && str_eqb a' b'
  | _, _ => false
  end.

(** [s[start:stop]]: the slice indices are adjusted as CPython's
    [PySlice_AdjustIndices] does for a step of one. *)
Definition adjust_index (i n : Z) : Z :=
  if i <? 0 then (if i + n <? 0 then 0 else i + n)
  else if n <=? i then n else i.

Definition py_slice (s : str) (start stop : Z) : str :=
  let n := len s in
  let start' := adjust_index start n in
  let stop' := adjust_index stop n in
  if start' <? stop'
  then firstn (Z.to_nat (stop' - start')) (skipn (Z.to_nat start') s)
  else [].

(** [c in s] for a one-character [c]. *)
Definition str_contains (c : ascii) (s : str) : bool :=
  existsb (Ascii.eqb c) s.

(** [s.count(c, start, end)] for a one-character [c]: the bounds are
    adjusted as [ADJUST_INDICES] does in unicodeobject.c, then the
    characters at the offsets [start <= i < end] are scanned. *)
Fixpoint count_scan (c : ascii) (s : str) (i lo hi : Z) : Z :=
  match s with
  | [] => 0
  | x :: t =>
      (if (lo <=? i) && (i <? hi) && Ascii.eqb x c then 1 else 0)
      + count_scan c t (i + 1) lo hi
  end.

Definition str_count (c : ascii) (s : str) (start end_ : Z) : Z :=
  let n := len s in
  let end1 := if n <? end_ then n
              else if end_ <? 0 then (if end_ + n <? 0 then 0 else end_ + n)
              else end_ in
  let start1 := if start <? 0 then (if start + n <? 0 then 0 else start + n)
                else start in
  count_scan c s 0 start1 end1.

(** [s.split(c)] for a one-character separator. *)
Fixpoint str_split (c : ascii) (s : str) : list str :=
  match s with
  | [] => [[]]
  | x :: t =>
      if Ascii.eqb x c then [] :: str_split c t
      else match str_split c t with
           | h :: r => (x :: h) :: r
           | [] => [[x]]
           end
  end.

(** [s * n]: a count that is zero or negative gives the empty string. *)
Definition str_repeat (s : str) (n : Z) : str :=
  List.concat (repeat s (Z.to_nat n)).

(** [str(i)] for an int. *)
Definition str_of_int (i : Z) : str :=
  lit (NilZero.string_of_int (Z.to_int i)).

(** ** Exceptions and results *)

Inductive Exc : Type :=
| StopIteration
| LexerError (msg : str)
| AttributeError (attr : str)
| IndexError
| ValueError
| TypeError
| ReError (msg : str)
| UserError (msg : str).

Inductive Result (A : Type) : Type :=
| Ok (a : A)
| Raise (e : Exc).
Arguments Ok {A} a.
Arguments Raise {A} e.

(** [seq[i]] on a list or a string: a negative index counts from the end,
    an index out of range raises [IndexError]. *)
Definition getitem {A : Type} (l : list A) (i : Z) : Result A :=
  let j := if i <? 0 then i + len l else i in
  if j <? 0 then Raise IndexError
  else match nth_error l (Z.to_nat j) with
       | Some x => Ok x
       | None => Raise IndexError
       end.

(** [template.format(args)] with automatically numbered [{}] fields, the
    only replacement fields of [LEXER_ERR_MSG]; an argument is rendered by
    [str()]. *)
Inductive FormatArg : Type :=
| FInt (i : Z)
| FStr (s : str).

Definition render (a : FormatArg) : str :=
  match a with
  | FInt i => str_of_int i
  | FStr s => s
  end.

Fixpoint format (template : str) (args : list FormatArg) : Result str :=
  match template with
  | [] => Ok []
  | c :: rest =>
      if Ascii.eqb c "{"%char then
        match rest with
        | d :: rest' =>
            if Ascii.eqb d "}"%char then
              match args with
              | a :: args' =>
                  match format rest' args' with
                  | Ok r => Ok (render a ++ r)
                  | Raise e => Raise e
                  end
              | [] => Raise IndexError
              end
            else Raise ValueError
        | [] => Raise ValueError
        end
      else
        match format rest args with
        | Ok r => Ok (c :: r)
        | Raise e => Raise e
        end
  end.

(** ** Tokens, rules and the lexer instance *)

Module Token.
(** [class Token]: slots [value], [type], [pos]. *)
Record t : Type := mk { value : str; type : str; pos : Z * Z }.
End Token.

(** The values an action or the error function may hand back, and the
    values of the attributes of a lexer. [VObject] stands for an object the
    lexer only stores (a function, a dict, a compiled pattern). *)
Inductive Value : Type :=
| VNone
| VBool (b : bool)
| VInt (i : Z)
| VStr (s : str)
| VToken (t : Token.t)
| VObject.

Definition is_none (v : Value) : bool :=
  match v with
  | VNone => true
  | _ => false
  end.

(** The match object of [pattern.match(subject, pos)]: [start()] and
    [end()]; [group(0)] is the subject between the two. *)
Record Match : Type := { m_start : Z; m_end : Z }.

Definition group0 (subject : str) (m : Match) : str :=
  py_slice subject (m_start m) (m_end m).

(** A compiled pattern, as far as the lexer uses it. *)
Record Pattern : Type := { match_ : str -> Z -> option Match }.

(** The attributes of the instance that a session reads and writes:
    [buffer], [pos], [col_no], [_line_start] and [_ignore_ws]. *)
Record Cursor : Type := {
  buffer : str;
  pos : Z;
  col_no : Z;
  _line_start : Z;
  _ignore_ws : bool
}.

(** A decorated function. It is called with the lexer and a token (an
    action) or a character (the error function); the model hands it the
    cursor attributes of the lexer, which it may update, and it returns a
    value or raises. *)
Record Func (Arg : Type) : Type := {
  __name__ : str;
  call : Cursor -> Arg -> Cursor * Result Value
}.
Arguments __name__ {Arg} f.
Arguments call {Arg} f c a.

(** [class PatternAction]: slots [pattern], [action]. *)
Record PatternAction : Type := {
  pattern : Pattern;
  action : Func Token.t
}.

(** [class Lexer], as [__init__] lays it out. *)
Record Lexer : Type := {
  cursor :> Cursor;
  _error_func : option (Func Value);
  _ws_pattern : Pattern;
  _rules : list (str * PatternAction)
}.

Definition with_cursor (self : Lexer) (c : Cursor) : Lexer :=
  {| cursor := c; _error_func := _error_func self;
     _ws_pattern := _ws_pattern self; _rules := _rules self |}.

Definition set_buffer (self : Lexer) (b : str) : Lexer :=
  with_cursor self
    {| buffer := b; pos := pos self; col_no := col_no self;
       _line_start := _line_start self; _ignore_ws := _ignore_ws self |}.

Definition set_pos (self : Lexer) (p : Z) : Lexer :=
  with_cursor self
    {| buffer := buffer self; pos := p; col_no := col_no self;
       _line_start := _line_start self; _ignore_ws := _ignore_ws self |}.

Definition set_col_no (self : Lexer) (c : Z) : Lexer :=
  with_cursor self
    {| buffer := buffer self; pos := pos self; col_no := c;
       _line_start := _line_start self; _ignore_ws := _ignore_ws self |}.

Definition set_line_start (self : Lexer) (p : Z) : Lexer :=
  with_cursor self
    {| buffer := buffer self; pos := pos self; col_no := col_no self;
       _line_start := p; _ignore_ws := _ignore_ws self |}.

Definition set_ignore_ws (self : Lexer) (w : bool) : Lexer :=
  with_cursor self
    {| buffer := buffer self; pos := pos self; col_no := col_no self;
       _line_start := _line_start self; _ignore_ws := w |}.

Definition set_error_func (self : Lexer) (f : option (Func Value)) : Lexer :=
  {| cursor := cursor self; _error_func := f;
     _ws_pattern := _ws_pattern self; _rules := _rules self |}.

Definition set_rules (self : Lexer) (r : list (str * PatternAction)) : Lexer :=
  {| cursor := cursor self; _error_func := _error_func self;
     _ws_pattern := _ws_pattern self; _rules := r |}.

(** [d[k] = v] on an insertion-ordered dict: an existing key keeps its
    place and takes the new value, a new key goes to the end. *)
Fixpoint dict_setitem {V : Type} (k : str) (v : V) (d : list (str * V))
  : list (str * V) :=
  match d with
  | [] => [(k, v)]
  | (k', v') :: rest =>
      if str_eqb k' k then (k', v) :: rest
      else (k', v') :: dict_setitem k v rest
  end.

(** [self.name]: the instance attributes are the eight that [__init__]
    sets, the class adds its methods; any other name raises
    [AttributeError]. *)
Definition methods : list str :=
  map lit ["setup"; "_token"; "get_pos"; "_error"; "__iter__"; "__next__";
           "next"; "on_match"; "on_error"]%string.

Definition getattr (self : Lexer) (name : str) : Result Value :=
  if str_eqb name (lit "buffer") then Ok (VStr (buffer self))
  else if str_eqb name (lit "pos") then Ok (VInt (pos self))
  else if str_eqb name (lit "col_no") then Ok (VInt (col_no self))
  else if str_eqb name (lit "_line_start") then Ok (VInt (_line_start self))
  else if str_eqb name (lit "_ignore_ws") then Ok (VBool (_ignore_ws self))
  else if str_eqb name (lit "_error_func") then
    Ok (match _error_func self with None => VNone | Some _ => VObject end)
  else if str_eqb name (lit "_ws_pattern") then Ok VObject
  else if str_eqb name (lit "_rules") then Ok VObject
  else if existsb (str_eqb name) methods then Ok VObject
  else Raise (AttributeError name).

(** ** Module constants *)

Definition WHITESPACE : str := lit "\s+".

Definition nl : str := [newline].

Definition LEXER_ERR_MSG : str :=
  nl ++
  nl ++
  lit "lexing error at line {}, column {}:" ++ nl ++
  nl ++
  lit "     {}" ++ nl ++
  lit "     {}^" ++ nl ++
  nl ++
  lit "invalid character in source" ++ nl.

(** ** The methods of [Lexer] *)

(** [Lexer.setup] *)
Definition setup (self : Lexer) (buffer_ : str) (ignore_ws : bool) : Lexer :=
  let self := set_buffer self buffer_ in
  let self := set_pos self 0 in
  let self := set_col_no self 0 in
  set_ignore_ws self ignore_ws.

(** [Lexer.get_pos] *)
Definition get_pos (self : Cursor) : Z * Z :=
  let line_no := str_count newline (buffer self) 0 (pos self) in
  (line_no, pos self - _line_start self).

(** [Lexer._error]. The error function is called with [self] and
    [self.buffer[self._pos]]; the arguments are evaluated before the
    call. *)
Definition _error (self : Lexer) : Lexer * Result Value :=
  match _error_func self with
  | None =>
      let '(line, column) := get_pos self in
      match getitem (str_split newline (buffer self)) line with
      | Raise e => (self, Raise e)
      | Ok source_line =>
          match format LEXER_ERR_MSG
                  [FInt line; FInt column; FStr source_line;
                   FStr (str_repeat [space] column)] with
          | Raise e => (self, Raise e)
          | Ok error_msg => (self, Raise (LexerError error_msg))
          end
      end
  | Some error_func =>
      match getattr self (lit "_pos") with
      | Raise e => (self, Raise e)
      | Ok (VInt i) =>
          match getitem (buffer self) i with
          | Raise e => (self, Raise e)
          | Ok ch =>
              let '(c, r) := call error_func (cursor self) (VStr [ch]) in
              (with_cursor self c, r)
          end
      | Ok _ => (self, Raise TypeError)
      end
  end.

(** The first block of [_token]: the whitespace skip. *)
Definition skip_ws (self : Lexer) : Lexer :=
  if _ignore_ws self then
    match match_ (_ws_pattern self) (buffer self) (pos self) with
    | Some m =>
        let self :=
          if str_contains newline (group0 (buffer self) m)
          then set_line_start self (m_end m)
          else self in
        set_pos self (m_end m)
    | None => self
    end
  else self.

(** The body of [if match:] inside the loop of [_token]: the token is
    built, the action is called, and only then [pos] is moved. *)
Definition on_hit (_buffer token_name : str) (pattern_ : PatternAction)
    (m : Match) (self : Lexer) : Lexer * Result Value :=
  let token := Token.mk (group0 _buffer m) token_name (get_pos self) in
  match call (action pattern_) (cursor self) token with
  | (c, Ok modfied_token) =>
      (set_pos (with_cursor self c) (m_end m), Ok modfied_token)
  | (c, Raise e) => (with_cursor self c, Raise e)
  end.

(** [for token_name, pattern in _rules.items()]: [None] when the loop runs
    to its end without a [return]. *)
Fixpoint for_rules (items : list (str * PatternAction)) (_buffer : str)
    (self : Lexer) : option (Lexer * Result Value) :=
  match items with
  | [] => None
  | (token_name, pattern_) :: rest =>
      match match_ (pattern pattern_) _buffer (pos self) with
      | Some m => Some (on_hit _buffer token_name pattern_ m self)
      | None => for_rules rest _buffer self
      end
  end.

(** [Lexer._token]. When [_error] returns, the function ends without a
    [return] statement, hence with [None]. *)
Definition _token (self : Lexer) : Lexer * Result Value :=
  let _buffer := buffer self in
  let _rules := _rules self in
  let self := skip_ws self in
  if len _buffer <=? pos self then (self, Ok VNone)
  else
    match for_rules _rules _buffer self with
    | Some r => r
    | None =>
        match _error self with
        | (self, Ok _) => (self, Ok VNone)
        | (self, Raise e) => (self, Raise e)
        end
    end.

(** [Lexer.__next__] *)
Definition __next__ (self : Lexer) : Lexer * Result Value :=
  match _token self with
  | (self, Ok token) =>
      if is_none token then (self, Raise StopIteration)
      else (self, Ok token)
  | (self, Raise e) => (self, Raise e)
  end.

(** [Lexer.on_error] *)
Definition on_error (self : Lexer) (func : Func Value) : Lexer * Func Value :=
  (set_error_func self (Some func), func).

Section Registration.

(** [re.compile]: a compiled pattern, or [re.error]. *)
Variable re_compile : str -> Result Pattern.

(** [Lexer.__init__] *)
Definition __init__ : Result Lexer :=
  match re_compile WHITESPACE with
  | Raise e => Raise e
  | Ok ws =>
      Ok {| cursor := {| buffer := []; pos := 0; col_no := 0;
                         _line_start := 0; _ignore_ws := true |};
            _error_func := None;
            _ws_pattern := ws;
            _rules := [] |}
  end.

(** [Lexer.on_match(pattern)(func)]: [on_match] only builds the
    decorator; applying it to [func] compiles and stores the rule. *)
Definition on_match (self : Lexer) (pattern_ : str) (func : Func Token.t)
  : Lexer * Result (Func Token.t) :=
  match re_compile pattern_ with
  | Raise e => (self, Raise e)
  | Ok compiled_pattern =>
      (set_rules self
         (dict_setitem (__name__ func)
            {| pattern := compiled_pattern; action := func |}
            (_rules self)),
       Ok func)
  end.

End Registration.

(** ** Iteration

    [for token in lexer]: [__iter__] returns the lexer itself and
    [__next__] is called until it raises. The number of calls is bounded by
    [fuel]. *)

Inductive Outcome : Type :=
| Stopped
| Failed (e : Exc)
| OutOfFuel.

Fixpoint drain (fuel : nat) (self : Lexer) : Lexer * list Value * Outcome :=
  match fuel with
  | O => (self, [], OutOfFuel)
  | S fuel' =>
      match __next__ self with
      | (self', Ok token) =>
          let '(final, tokens, o) := drain fuel' self' in
          (final, token :: tokens, o)
      | (self', Raise StopIteration) => (self', [], Stopped)
      | (self', Raise e) => (self', [], Failed e)
      end
  end.

(** What a run consumes, piece by piece: the whitespace each call skips
    before it looks at the rules, and the value it yields. *)
Inductive Piece : Type :=
| Skipped (s : str)
| Yielded (v : Value).

Definition ws_run (self : Lexer) : str :=
  py_slice (buffer self) (pos self) (pos (skip_ws self)).

Fixpoint pieces (fuel : nat) (self : Lexer) : list Piece :=
  match fuel with
  | O => []
  | S fuel' =>
      match __next__ self with
      | (self', Ok token) =>
          Skipped (ws_run self) :: Yielded token :: pieces fuel' self'
      | (_, Raise _) => [Skipped (ws_run self)]
      end
  end.

Definition text_of (p : Piece) : str :=
  match p with
  | Skipped s => s
  | Yielded (VToken t) => Token.value t
  | Yielded _ => []
  end.

Fixpoint yielded (ps : list Piece) : list Value :=
  match ps with
  | [] => []
  | Skipped _ :: rest => yielded rest
  | Yielded v :: rest => v :: yielded rest
  end.

(** ** What the claims assume of patterns and actions *)

(** An anchored match at an offset inside the subject starts there and ends
    inside the subject: [match(subject, pos)] never searches ahead. *)
Definition anchored (p : Pattern) : Prop :=
  forall subject i m,
    0 <= i <= len subject ->
    match_ p subject i = Some m ->
    m_start m = i /\ i <= m_end m <= len subject.

(** A pattern such as [\s+] matches at least one character, and so nothing
    at or past the end of the subject. *)
Definition consuming (p : Pattern) : Prop :=
  forall subject i m,
    match_ p subject i = Some m -> i < m_end m <= len subject.

(** [def NAME(self, token): return token] *)
Definition returns_token (f : Func Token.t) : Prop :=
  forall c t, call f c t = (c, Ok (VToken t)).

Definition no_rule_matches (rules : list (str * PatternAction))
    (subject : str) (i : Z) : Prop :=
  Forall (fun r => match_ (pattern (snd r)) subject i = None) rules.

(** The invariant of a session: the cursor is inside the buffer. *)
Definition in_buffer (c : Cursor) : Prop := 0 <= pos c <= len (buffer c).

(** The number of newline characters of a string. *)
Definition newlines (s : str) : Z :=
  Z.of_nat (count_occ ascii_dec s newline).

(** The rendered diagnostic, written out. *)
Definition diagnostic (line column : Z) (source_line : str) (spaces : str)
  : str :=
  nl ++ nl ++
  lit "lexing error at line " ++ str_of_int line ++
  lit ", column " ++ str_of_int column ++ lit ":" ++ nl ++
  nl ++
  lit "     " ++ source_line ++ nl ++
  lit "     " ++ spaces ++ lit "^" ++ nl ++
  nl ++
  lit "invalid character in source" ++ nl.

(** ** A small table of patterns for the examples

    The patterns of the examples are character-class runs; [class_plus cls]
    is the compiled [[cls]+]: the longest non-empty run of characters of the
    class from the start offset, which [match] clamps into the subject. *)

Fixpoint span (cls : ascii -> bool) (s : str) : nat :=
  match s with
  | [] => O
  | x :: t => if cls x then S (span cls t) else O
  end.

Definition class_plus (cls : ascii -> bool) : Pattern :=
  {| match_ := fun subject i =>
       let p := Z.max 0 (Z.min i (len subject)) in
       match span cls (skipn (Z.to_nat p) subject) with
       | O => None
       | S n => Some {| m_start := p; m_end := p + Z.of_nat (S n) |}
       end |}.

Definition in_range (lo hi : nat) (c : ascii) : bool :=
  let n := nat_of_ascii c in (lo <=? n)%nat && (n <=? hi)%nat.

Definition is_space (c : ascii) : bool :=
  in_range 9 13 c || in_range 28 32 c.

Definition is_digit (c : ascii) : bool := in_range 48 57 c.

Definition is_lower (c : ascii) : bool := in_range 97 122 c.

Definition is_alnum (c : ascii) : bool :=
  is_digit c || is_lower c || in_range 65 90 c.

(** [re.compile] on the sources the examples use; an unbalanced
    parenthesis is the malformed source. *)
Definition sample_compile (source : str) : Result Pattern :=
  if str_eqb source (lit "\s+") then Ok (class_plus is_space)
  else if str_eqb source (lit "\d+") then Ok (class_plus is_digit)
  else if str_eqb source (lit "[a-z]+") then Ok (class_plus is_lower)
  else if str_eqb source (lit "[0-9a-zA-Z]+") then Ok (class_plus is_alnum)
  else Raise (ReError (lit "missing ), unterminated subpattern")).

Definition return_token (name : string) : Func Token.t :=
  {| __name__ := lit name; call := fun c t => (c, Ok (VToken t)) |}.

Definition return_none (name : string) : Func Token.t :=
  {| __name__ := lit name; call := fun c _ => (c, Ok VNone) |}.

(** [def error(self, value): self.pos += 1] *)
Definition skip_char : Func Value :=
  {| __name__ := lit "error";
     call := fun c _ =>
       ({| buffer := buffer c; pos := pos c + 1; col_no := col_no c;
           _line_start := _line_start c; _ignore_ws := _ignore_ws c |},
        Ok VNone) |}.

(** A lexer as [__init__] leaves it, with the rules [DIGIT] and [ID] of the
    test suite registered in that order. *)
Definition blank_lexer : Lexer :=
  {| cursor := {| buffer := []; pos := 0; col_no := 0;
                  _line_start := 0; _ignore_ws := true |};
     _error_func := None;
     _ws_pattern := class_plus is_space;
     _rules := [] |}.

Definition sample_lexer : Lexer :=
  fst (on_match sample_compile
         (fst (on_match sample_compile blank_lexer (lit "\d+")
                 (return_token "DIGIT")))
         (lit "[a-z]+") (return_token "ID")).

(** The rules of the examples on rule order: [DIGIT] is [\d+], and [WORD],
    [[0-9a-zA-Z]+], matches wherever [DIGIT] does, and further. *)
Definition digit_rule : PatternAction :=
  {| pattern := class_plus is_digit; action := return_token "DIGIT" |}.

Definition word_rule : PatternAction :=
  {| pattern := class_plus is_alnum; action := return_token "WORD" |}.

(** A rule whose action forgets its [return]. *)
Definition silent_digit_rule : PatternAction :=
  {| pattern := class_plus is_digit; action := return_none "DIGIT" |}.

(** [class_star cls] is the compiled [[cls]*]: the longest run of characters
    of the class from the start offset, which may be empty. *)
Definition class_star (cls : ascii -> bool) : Pattern :=
  {| match_ := fun subject i =>
       let p := Z.max 0 (Z.min i (len subject)) in
       Some {| m_start := p;
               m_end := p + Z.of_nat (span cls (skipn (Z.to_nat p) subject)) |}
  |}.

(** A rule whose pattern, [\d*], matches the empty string. *)
Definition optional_digits_rule : PatternAction :=
  {| pattern := class_star is_digit; action := return_token "NUM" |}.

(** [def WORD(self, token): self.pos = 0; return token] *)
Definition rewinding (name : string) : Func Token.t :=
  {| __name__ := lit name;
     call := fun c t =>
       ({| buffer := buffer c; pos := 0; col_no := col_no c;
           _line_start := _line_start c; _ignore_ws := _ignore_ws c |},
        Ok (VToken t)) |}.

(** [sep.join(parts)] *)
Fixpoint str_join (sep : str) (parts : list str) : str :=
  match parts with
  | [] => []
  | [p] => p
  | p :: rest => p ++ sep ++ str_join sep rest
  end.

(** A rule whose action moves the cursor back, and a rule for blanks, which
    a lexer that does not skip whitespace needs. *)
Definition rewinding_word_rule : PatternAction :=
  {| pattern := class_plus is_lower; action := rewinding "WORD" |}.

Definition blank_rule : PatternAction :=
  {| pattern := class_plus is_space; action := return_token "BLANK" |}.

(** * Properties *)

(** ** Slices and counts *)

Lemma len_nonneg {A : Type} (s : list A) : 0 <= len s.
Proof. unfold len. lia. Qed.

Lemma adjust_index_inside (i n : Z) : 0 <= i <= n -> adjust_index i n = i.
Proof.
  intros H. unfold adjust_index.
  destruct (Z.ltb_spec i 0); [lia|].
  destruct (Z.leb_spec n i); lia.
Qed.

Lemma py_slice_inside (s : str) (a b : Z) :
  0 <= a <= b -> b <= len s ->
  py_slice s a b = firstn (Z.to_nat (b - a)) (skipn (Z.to_nat a) s).
Proof.
  intros Hab Hb. unfold py_slice.
  rewrite !adjust_index_inside by lia.
  destruct (Z.ltb_spec a b) as [Hlt|Hge]; [reflexivity|].
  replace (b - a) with 0 by lia. reflexivity.
Qed.

Lemma firstn_then_firstn {A : Type} (n m : nat) (l : list A) :
  firstn n l ++ firstn m (skipn n l) = firstn (n + m) l.
Proof.
  revert l. induction n as [|n IH]; intros l; [reflexivity|].
  destruct l as [|x l]; simpl.
  - now rewrite firstn_nil.
  - now rewrite IH.
Qed.

Lemma py_slice_app (s : str) (a b c : Z) :
  0 <= a <= b -> b <= c <= len s ->
  py_slice s a b ++ py_slice s b c = py_slice s a c.
Proof.
  intros Hab Hbc.
  rewrite !py_slice_inside by lia.
  replace (Z.to_nat b) with (Z.to_nat (b - a) + Z.to_nat a)%nat by lia.
  rewrite <- skipn_skipn, firstn_then_firstn.
  f_equal. lia.
Qed.

Lemma py_slice_empty (s : str) (a : Z) :
  0 <= a <= len s -> py_slice s a a = [].
Proof.
  intros H. rewrite py_slice_inside by lia.
  now replace (a - a) with 0 by lia.
Qed.

Lemma py_slice_all (s : str) : py_slice s 0 (len s) = s.
Proof.
  rewrite py_slice_inside by (pose proof (len_nonneg s); lia).
  simpl. rewrite Z.sub_0_r. unfold len. rewrite Nat2Z.id.
  apply firstn_all.
Qed.

Lemma count_scan_firstn (c : ascii) (s : str) (i hi : Z) :
  0 <= i ->
  count_scan c s i 0 hi
  = Z.of_nat (count_occ ascii_dec (firstn (Z.to_nat (hi - i)) s) c).
Proof.
  revert i. induction s as [|x t IH]; intros i Hi.
  - now rewrite firstn_nil.
  - cbn [count_scan]. rewrite IH by lia.
    destruct (Z.leb_spec 0 i) as [_|]; [|lia].
    destruct (Z.ltb_spec i hi) as [Hlt|Hge]; cbn [andb].
    + replace (Z.to_nat (hi - i)) with (S (Z.to_nat (hi - (i + 1)))) by lia.
      cbn [firstn count_occ].
      destruct (ascii_dec x c) as [->|Hne].
      * rewrite Ascii.eqb_refl. lia.
      * apply Ascii.eqb_neq in Hne. rewrite Hne. lia.
    + replace (Z.to_nat (hi - i)) with O by lia.
      replace (Z.to_nat (hi - (i + 1))) with O by lia.
      reflexivity.
Qed.

Lemma str_count_slice (c : ascii) (s : str) (stop : Z) :
  str_count c s 0 stop
  = Z.of_nat (count_occ ascii_dec (py_slice s 0 stop) c).
Proof.
  unfold str_count, py_slice. cbn [Z.ltb Z.compare].
  rewrite count_scan_firstn by lia. rewrite Z.sub_0_r.
  pose proof (len_nonneg s) as Hn.
  set (n := len s) in *.
  assert (Hstart : adjust_index 0 n = 0).
  { apply adjust_index_inside. lia. }
  rewrite Hstart. unfold adjust_index.
  destruct (Z.ltb_spec n stop) as [H1|H1].
  - destruct (Z.ltb_spec stop 0); [lia|].
    destruct (Z.leb_spec n stop); [|lia].
    destruct (Z.ltb_spec 0 n) as [H2|H2].
    + now rewrite Z.sub_0_r.
    + now replace n with 0 by lia.
  - destruct (Z.ltb_spec stop 0) as [H2|H2].
    + destruct (Z.ltb_spec (stop + n) 0) as [H3|H3]; [reflexivity|].
      destruct (Z.ltb_spec 0 (stop + n)) as [H4|H4].
      * now rewrite Z.sub_0_r.
      * now replace (stop + n) with 0 by lia.
    + destruct (Z.leb_spec n stop) as [H3|H3].
      * replace stop with n by lia.
        destruct (Z.ltb_spec 0 n) as [H4|H4].
        -- now rewrite Z.sub_0_r.
        -- now replace n with 0 by lia.
      * destruct (Z.ltb_spec 0 stop) as [H4|H4].
        -- now rewrite Z.sub_0_r.
        -- now replace stop with 0 by lia.
Qed.

(** ** The session: [setup] and [get_pos] *)

(** What [setup] does to each attribute: the buffer, [pos], [col_no] and
    [_ignore_ws] are set; [_line_start], the rules and the error function
    are left as they were. *)
Lemma setup_frame (self : Lexer) (B : str) (w : bool) :
  buffer (setup self B w) = B
  /\ pos (setup self B w) = 0
  /\ col_no (setup self B w) = 0
  /\ _ignore_ws (setup self B w) = w
  /\ _line_start (setup self B w) = _line_start self
  /\ _rules (setup self B w) = _rules self
  /\ _error_func (setup self B w) = _error_func self
  /\ _ws_pattern (setup self B w) = _ws_pattern self.
Proof. repeat split. Qed.

(** C6. [get_pos] returns the number of newline characters of
    [buffer[0:pos]] as the line and [pos - _line_start] as the column, in
    every state of the lexer. *)
Theorem get_pos_line_column (self : Lexer) :
  get_pos self
  = (newlines (py_slice (buffer self) 0 (pos self)),
     pos self - _line_start self).
Proof.
  unfold get_pos, newlines. now rewrite str_count_slice.
Qed.

(** ** The whitespace skip *)

Lemma skip_ws_frame (self : Lexer) :
  buffer (skip_ws self) = buffer self
  /\ _ignore_ws (skip_ws self) = _ignore_ws self
  /\ _rules (skip_ws self) = _rules self
  /\ _error_func (skip_ws self) = _error_func self
  /\ _ws_pattern (skip_ws self) = _ws_pattern self.
Proof.
  unfold skip_ws.
  destruct (_ignore_ws self) eqn:Hw; [|now rewrite Hw].
  destruct (match_ _ _ _) as [m|]; [|now rewrite Hw].
  destruct (str_contains _ _); cbn; now rewrite ?Hw.
Qed.

Lemma skip_ws_set_rules (self : Lexer) (r : list (str * PatternAction)) :
  skip_ws (set_rules self r) = set_rules (skip_ws self) r.
Proof.
  unfold skip_ws. cbn.
  destruct (_ignore_ws self); [|reflexivity].
  destruct (match_ _ _ _) as [m|]; [|reflexivity].
  now destruct (str_contains _ _).
Qed.

(** The skip moves [pos] forward and keeps it inside the buffer. *)
Lemma skip_ws_pos (self : Lexer) :
  anchored (_ws_pattern self) -> in_buffer self ->
  pos self <= pos (skip_ws self) <= len (buffer self).
Proof.
  intros Hws Hin. unfold in_buffer in Hin. unfold skip_ws.
  destruct (_ignore_ws self); [|lia].
  destruct (match_ _ _ _) as [m|] eqn:Hm; [|lia].
  destruct (Hws _ _ _ Hin Hm) as [_ Hend].
  destruct (str_contains _ _); cbn; lia.
Qed.

(** Once the skip has brought [pos] to the end of the buffer, skipping again
    changes nothing. *)
Lemma skip_ws_at_end (self : Lexer) :
  consuming (_ws_pattern self) ->
  len (buffer self) <= pos self -> skip_ws self = self.
Proof.
  intros Hws Hend. unfold skip_ws.
  destruct (_ignore_ws self); [|reflexivity].
  destruct (match_ _ _ _) as [m|] eqn:Hm; [|reflexivity].
  apply Hws in Hm. lia.
Qed.

(** ** The rule loop *)

Lemma for_rules_none (rules : list (str * PatternAction)) (b : str)
    (self : Lexer) :
  no_rule_matches rules b (pos self) -> for_rules rules b self = None.
Proof.
  induction 1 as [|[name pa] rest Hhd _ IH]; [reflexivity|].
  cbn in *. now rewrite Hhd.
Qed.

(** The loop returns at the first rule, in the order of the dict, whose
    pattern matches at [pos]; the rules after it are not tried. *)
Lemma for_rules_first (l1 l2 : list (str * PatternAction)) (name : str)
    (pa : PatternAction) (b : str) (self : Lexer) (m : Match) :
  no_rule_matches l1 b (pos self) ->
  match_ (pattern pa) b (pos self) = Some m ->
  for_rules (l1 ++ (name, pa) :: l2) b self
  = Some (on_hit b name pa m self).
Proof.
  intros Hno Hm.
  induction Hno as [|[n0 p0] rest Hhd _ IH]; cbn in *.
  - now rewrite Hm.
  - now rewrite Hhd.
Qed.

Lemma token_first_match (self : Lexer) (l1 l2 : list (str * PatternAction))
    (name : str) (pa : PatternAction) (m : Match) :
  _rules self = l1 ++ (name, pa) :: l2 ->
  pos (skip_ws self) < len (buffer self) ->
  no_rule_matches l1 (buffer self) (pos (skip_ws self)) ->
  match_ (pattern pa) (buffer self) (pos (skip_ws self)) = Some m ->
  _token self = on_hit (buffer self) name pa m (skip_ws self).
Proof.
  intros Hrules Hpos Hno Hm. unfold _token.
  destruct (Z.leb_spec (len (buffer self)) (pos (skip_ws self))); [lia|].
  rewrite Hrules.
  now rewrite (for_rules_first l1 l2 name pa _ _ m Hno Hm).
Qed.

Lemma token_no_match (self : Lexer) :
  pos (skip_ws self) < len (buffer self) ->
  no_rule_matches (_rules self) (buffer self) (pos (skip_ws self)) ->
  _token self
  = match _error (skip_ws self) with
    | (self', Ok _) => (self', Ok VNone)
    | (self', Raise e) => (self', Raise e)
    end.
Proof.
  intros Hpos Hno. unfold _token.
  destruct (Z.leb_spec (len (buffer self)) (pos (skip_ws self))); [lia|].
  now rewrite (for_rules_none _ _ _ Hno).
Qed.

Lemma token_exhausted (self : Lexer) :
  len (buffer self) <= pos (skip_ws self) ->
  _token self = (skip_ws self, Ok VNone).
Proof.
  intros Hpos. unfold _token.
  now destruct (Z.leb_spec (len (buffer self)) (pos (skip_ws self))); [|lia].
Qed.

(** ** Registration *)

Lemma dict_setitem_fresh {V : Type} (k : str) (v : V) (d : list (str * V)) :
  Forall (fun kv => str_eqb (fst kv) k = false) d ->
  dict_setitem k v d = d ++ [(k, v)].
Proof.
  induction 1 as [|[k' v'] rest Hhd _ IH]; [reflexivity|].
  cbn in *. now rewrite Hhd, IH.
Qed.

(** A rule registered under a new name goes after the rules already
    there: the order of the dict is the order of registration. *)
Lemma on_match_appends (re_compile : str -> Result Pattern) (self : Lexer)
    (source : str) (func : Func Token.t) (p : Pattern) :
  re_compile source = Ok p ->
  Forall (fun kv => str_eqb (fst kv) (__name__ func) = false) (_rules self) ->
  on_match re_compile self source func
  = (set_rules self
       (_rules self ++ [(__name__ func, {| pattern := p; action := func |})]),
     Ok func).
Proof.
  intros Hc Hfresh. unfold on_match.
  now rewrite Hc, dict_setitem_fresh.
Qed.

(** ** Claims about one call of [__next__] *)

(** C1. The claim asks [setup] to bring [_line_start] back to zero; the
    method resets [pos] and the unused [col_no] and leaves [_line_start]
    alone. After a first session that crossed a newline ([_line_start] is
    7 at its end), a second session over ["ab 1"] starts with [pos] zero,
    [_line_start] still 7, and reports the column -7 for its first token. *)
Theorem setup_keeps_stale_line_start :
  let first :=
    fst (fst (drain 10
                (setup sample_lexer (lit "12 ab" ++ nl ++ lit " 7") true))) in
  let second := setup first (lit "ab 1") true in
  _line_start first = 7
  /\ pos second = 0
  /\ _ignore_ws second = true
  /\ _rules second = _rules first
  /\ _error_func second = _error_func first
  /\ _line_start second = 7
  /\ get_pos second = (0, -7)
  /\ snd (fst (drain 1 second))
     = [VToken (Token.mk (lit "ab") (lit "ID") (0, -7))].
Proof. vm_compute. repeat split. Qed.

(** With an error function installed, [_error] evaluates
    [self.buffer[self._pos]] before the call; no attribute [_pos] exists,
    the cursor being [pos], so the evaluation raises and the function is
    never called, whatever it is. *)
Lemma error_func_never_called (self : Lexer) (f : Func Value) :
  _error_func self = Some f ->
  _error self = (self, Raise (AttributeError (lit "_pos"))).
Proof. intros H. unfold _error. now rewrite H. Qed.

(** C2. The claim has the installed error function called with the lexer
    and [buffer[pos]]. On the buffer ["#"], which no rule matches, with an
    error function that skips the character, [__next__] raises
    [AttributeError] for [_pos] and leaves [pos] at 0, where a call of the
    function would have left it at 1. *)
Theorem error_hook_raises_attribute_error :
  let lexer := fst (on_error (setup sample_lexer (lit "#") true) skip_char) in
  _error_func lexer = Some skip_char
  /\ no_rule_matches (_rules lexer) (buffer lexer) (pos (skip_ws lexer))
  /\ getitem (buffer lexer) (pos lexer) = Ok "#"%char
  /\ __next__ lexer = (lexer, Raise (AttributeError (lit "_pos")))
  /\ pos (fst (__next__ lexer)) = 0
  /\ pos (fst (call skip_char lexer (VStr (lit "#")))) = 1.
Proof.
  cbv zeta. repeat split. repeat constructor.
Qed.

(** C4. In a registry that holds two rules whose patterns both match at the
    current offset, with no matching rule before them, [_token] fires the
    one that comes first in registration order, on that rule's own match;
    with the two rules swapped and nothing else changed it fires the other
    one, again on its own match. The match a rule wins with is the one its
    pattern gives at that offset, whatever the order. *)
Theorem first_registered_rule_wins (self : Lexer)
    (l1 l2 l3 : list (str * PatternAction)) (n1 n2 : str)
    (r1 r2 : PatternAction) (m1 m2 : Match) :
  let at_ := skip_ws self in
  pos at_ < len (buffer self) ->
  no_rule_matches l1 (buffer self) (pos at_) ->
  match_ (pattern r1) (buffer self) (pos at_) = Some m1 ->
  match_ (pattern r2) (buffer self) (pos at_) = Some m2 ->
  let order12 := l1 ++ (n1, r1) :: l2 ++ (n2, r2) :: l3 in
  let order21 := l1 ++ (n2, r2) :: l2 ++ (n1, r1) :: l3 in
  _token (set_rules self order12)
  = on_hit (buffer self) n1 r1 m1 (set_rules at_ order12)
  /\ _token (set_rules self order21)
     = on_hit (buffer self) n2 r2 m2 (set_rules at_ order21).
Proof.
  intros at_ Hpos Hno H1 H2 order12 order21. split.
  - rewrite (token_first_match (set_rules self order12) l1
               (l2 ++ (n2, r2) :: l3) n1 r1 m1);
      rewrite ?skip_ws_set_rules; auto.
  - rewrite (token_first_match (set_rules self order21) l1
               (l2 ++ (n1, r1) :: l3) n2 r2 m2);
      rewrite ?skip_ws_set_rules; auto.
Qed.

(** C5. When the first rule that matches at the offset reached after the
    whitespace skip is [name], with match [m], the action of that rule is
    called on the lexer as the skip left it (so with [pos] still at the
    start of the match) and on the token whose value is the matched text,
    whose type is [name] and whose position is [get_pos] there. If the
    action returns [v], [_token] returns [v] and has set [pos] to the end of
    the match, over whatever the action wrote; [__next__] yields [v] unless
    it is [None]. If the action raises, [pos] is not moved. *)
Theorem token_built_then_action_then_advance (self : Lexer)
    (l1 l2 : list (str * PatternAction)) (name : str) (pa : PatternAction)
    (m : Match) :
  let at_ := skip_ws self in
  let token := Token.mk (group0 (buffer self) m) name (get_pos at_) in
  _rules self = l1 ++ (name, pa) :: l2 ->
  pos at_ < len (buffer self) ->
  no_rule_matches l1 (buffer self) (pos at_) ->
  match_ (pattern pa) (buffer self) (pos at_) = Some m ->
  forall c r, call (action pa) (cursor at_) token = (c, r) ->
  match r with
  | Ok v =>
      _token self = (set_pos (with_cursor at_ c) (m_end m), Ok v)
      /\ pos (fst (_token self)) = m_end m
      /\ (is_none v = false -> snd (__next__ self) = Ok v)
  | Raise e =>
      _token self = (with_cursor at_ c, Raise e)
      /\ pos (fst (_token self)) = pos c
  end.
Proof.
  intros at_ token Hrules Hpos Hno Hm c r Hcall.
  pose proof (token_first_match self l1 l2 name pa m Hrules Hpos Hno Hm)
    as Htok.
  unfold on_hit in Htok. fold at_ token in Htok. rewrite Hcall in Htok.
  destruct r as [v|e]; rewrite Htok; repeat split.
  intros Hv. unfold __next__. now rewrite Htok, Hv.
Qed.

(** C10. When the action of the matching rule returns [None], [_token]
    still moves [pos] to the end of the match, and [__next__] raises
    [StopIteration]: a [for] loop over the lexer ends there, with no token,
    as it does at the end of the buffer. *)
Theorem action_returning_none_stops (self : Lexer)
    (l1 l2 : list (str * PatternAction)) (name : str) (pa : PatternAction)
    (m : Match) (c : Cursor) :
  let at_ := skip_ws self in
  let token := Token.mk (group0 (buffer self) m) name (get_pos at_) in
  let final := set_pos (with_cursor at_ c) (m_end m) in
  _rules self = l1 ++ (name, pa) :: l2 ->
  pos at_ < len (buffer self) ->
  no_rule_matches l1 (buffer self) (pos at_) ->
  match_ (pattern pa) (buffer self) (pos at_) = Some m ->
  call (action pa) (cursor at_) token = (c, Ok VNone) ->
  __next__ self = (final, Raise StopIteration)
  /\ pos final = m_end m
  /\ forall fuel, drain (S fuel) self = (final, [], Stopped).
Proof.
  intros at_ token final Hrules Hpos Hno Hm Hcall.
  pose proof (token_first_match self l1 l2 name pa m Hrules Hpos Hno Hm)
    as Htok.
  unfold on_hit in Htok. fold at_ token in Htok. rewrite Hcall in Htok.
  assert (Hnext : __next__ self = (final, Raise StopIteration)).
  { unfold __next__. now rewrite Htok. }
  repeat split; [exact Hnext|].
  intros fuel. cbn [drain]. now rewrite Hnext.
Qed.

(** C8. When [pos] is at or past the end of the buffer once the whitespace
    skip is done, [__next__] raises [StopIteration] and a loop over the
    lexer ends with no token and no error. A further call gives the same
    signal and leaves the lexer as it is. *)
Theorem end_of_input_stops (self : Lexer) :
  len (buffer self) <= pos (skip_ws self) ->
  __next__ self = (skip_ws self, Raise StopIteration)
  /\ (forall fuel, drain (S fuel) self = (skip_ws self, [], Stopped))
  /\ (consuming (_ws_pattern self) ->
      __next__ (skip_ws self) = (skip_ws self, Raise StopIteration)).
Proof.
  intros Hend.
  assert (Hnext : forall s : Lexer, len (buffer s) <= pos (skip_ws s) ->
                            __next__ s = (skip_ws s, Raise StopIteration)).
  { intros s Hs. unfold __next__. now rewrite token_exhausted. }
  repeat split.
  - now apply Hnext.
  - intros fuel. cbn [drain]. now rewrite Hnext.
  - intros Hws.
    destruct (skip_ws_frame self) as (Hb & _ & _ & _ & Hp).
    assert (Hfix : skip_ws (skip_ws self) = skip_ws self).
    { apply skip_ws_at_end; [now rewrite Hp | now rewrite Hb]. }
    rewrite <- Hfix at 2. apply Hnext. rewrite Hfix, Hb. exact Hend.
Qed.

(** C9. When [re.compile] rejects the pattern source, registration raises
    its error and the lexer, hence its rule registry, is what it was. *)
Theorem on_match_bad_pattern_keeps_registry
    (re_compile : str -> Result Pattern) (self : Lexer) (source : str)
    (func : Func Token.t) (e : Exc) :
  re_compile source = Raise e ->
  on_match re_compile self source func = (self, Raise e)
  /\ _rules (fst (on_match re_compile self source func)) = _rules self.
Proof.
  intros H. unfold on_match. now rewrite H.
Qed.

(** ** The default diagnostic *)

Lemma str_split_length (c : ascii) (s : str) :
  List.length (str_split c s) = S (count_occ ascii_dec s c).
Proof.
  induction s as [|x t IH]; [reflexivity|].
  cbn [str_split count_occ].
  destruct (ascii_dec x c) as [->|Hne].
  - rewrite Ascii.eqb_refl. cbn. now rewrite IH.
  - apply Ascii.eqb_neq in Hne. rewrite Hne.
    destruct (str_split c t); cbn in *; lia.
Qed.

Lemma count_occ_firstn_le (c : ascii) (n : nat) (s : str) :
  (count_occ ascii_dec (firstn n s) c <= count_occ ascii_dec s c)%nat.
Proof.
  rewrite <- (firstn_skipn n s) at 2. rewrite count_occ_app. lia.
Qed.

Lemma count_occ_skipn_le (c : ascii) (n : nat) (s : str) :
  (count_occ ascii_dec (skipn n s) c <= count_occ ascii_dec s c)%nat.
Proof.
  rewrite <- (firstn_skipn n s) at 2. rewrite count_occ_app. lia.
Qed.

Lemma newlines_slice_le (s : str) (a b : Z) :
  0 <= newlines (py_slice s a b) <= newlines s.
Proof.
  unfold newlines, py_slice.
  destruct (_ <? _).
  - pose proof (count_occ_firstn_le newline
                  (Z.to_nat (adjust_index b (len s) - adjust_index a (len s)))
                  (skipn (Z.to_nat (adjust_index a (len s))) s)).
    pose proof (count_occ_skipn_le newline
                  (Z.to_nat (adjust_index a (len s))) s).
    lia.
  - cbn. lia.
Qed.

Lemma getitem_inside {A : Type} (l : list A) (i : Z) :
  0 <= i < len l ->
  exists x, nth_error l (Z.to_nat i) = Some x /\ getitem l i = Ok x.
Proof.
  intros Hi. unfold getitem.
  assert (Hneg : (i <? 0) = false) by lia.
  rewrite !Hneg.
  destruct (nth_error l (Z.to_nat i)) as [x|] eqn:Hn.
  - now exists x.
  - apply nth_error_None in Hn. unfold len in Hi. lia.
Qed.

Lemma str_repeat_space (n : Z) :
  str_repeat [space] n = repeat space (Z.to_nat n).
Proof.
  unfold str_repeat. induction (Z.to_nat n) as [|k IH]; [reflexivity|].
  cbn [repeat List.concat app]. now f_equal.
Qed.

Lemma format_diagnostic (line column : Z) (source_line spaces : str) :
  format LEXER_ERR_MSG
    [FInt line; FInt column; FStr source_line; FStr spaces]
  = Ok (diagnostic line column source_line spaces).
Proof.
  unfold LEXER_ERR_MSG, diagnostic, nl, newline. reflexivity.
Qed.

(** [_error] never returns: without an error function it raises
    [LexerError] (the line it looks up always exists), with one it raises
    on [_pos]. *)
Lemma error_raises (self : Lexer) :
  exists e, e <> StopIteration /\ _error self = (self, Raise e).
Proof.
  unfold _error. destruct (_error_func self) as [f|].
  - exists (AttributeError (lit "_pos")). split; [discriminate|reflexivity].
  - destruct (get_pos self) as [line column].
    destruct (getitem _ line) as [source_line|e] eqn:Hg.
    + rewrite format_diagnostic. eexists. split; [|reflexivity]. discriminate.
    + exists e. split; [|reflexivity].
      unfold getitem in Hg.
      destruct (_ <? 0); [now inversion Hg|].
      destruct (nth_error _ _); now inversion Hg.
Qed.

(** What the default mode raises. With no error function installed, when
    no rule matches at the offset reached after the whitespace skip,
    [__next__] raises [LexerError] with the template filled in by the line
    number (the newlines before the offset, from 0), the column
    ([pos - _line_start]), the line of the buffer with that number, which
    always exists, and [' ' * column] before the caret: as many spaces as
    the column when [_line_start] is not beyond [pos], none when it is. *)
Theorem default_error_message (self : Lexer) :
  let at_ := skip_ws self in
  let line := newlines (py_slice (buffer self) 0 (pos at_)) in
  let column := pos at_ - _line_start at_ in
  _error_func self = None ->
  pos at_ < len (buffer self) ->
  no_rule_matches (_rules self) (buffer self) (pos at_) ->
  exists source_line,
    nth_error (str_split newline (buffer self)) (Z.to_nat line)
    = Some source_line
    /\ __next__ self
       = (at_, Raise (LexerError
                        (diagnostic line column source_line
                           (repeat space (Z.to_nat column)))))
    /\ 0 <= line
    /\ (_line_start at_ <= pos at_ ->
        0 <= column /\ len (repeat space (Z.to_nat column)) = column).
Proof.
  intros at_ line column Hfunc Hpos Hno.
  destruct (skip_ws_frame self) as (Hb & _ & _ & Hf & _). fold at_ in Hb, Hf.
  pose proof (newlines_slice_le (buffer self) 0 (pos at_)) as Hline.
  fold line in Hline.
  destruct (getitem_inside (str_split newline (buffer self)) line)
    as (source_line & Hnth & Hget).
  { unfold len. rewrite str_split_length. unfold newlines in Hline. lia. }
  exists source_line. repeat split; [exact Hnth| |lia|lia|].
  - unfold __next__. rewrite token_no_match by assumption. fold at_.
    unfold _error. rewrite Hf, Hfunc, get_pos_line_column, Hb.
    fold line column. rewrite Hget, format_diagnostic, str_repeat_space.
    reflexivity.
  - unfold len. rewrite repeat_length. lia.
Qed.

(** C7. The claim has the message carry the column of the failure, counted
    from 0, and that many spaces before the caret, in every state. On a
    lexer whose first session crossed a newline ([_line_start] is 7 at its
    end) and which is then set up on ["#"], no error function being
    installed, the offending character is the first of the buffer, yet the
    message reads [column -7] and puts no space before the caret. The same
    buffer on a lexer that has lexed nothing reports column 0. *)
Theorem default_error_message_after_second_setup :
  let first :=
    fst (fst (drain 10
                (setup sample_lexer (lit "12 ab" ++ nl ++ lit " 7") true))) in
  let second := setup first (lit "#") true in
  _error_func second = None
  /\ pos (skip_ws second) = 0
  /\ no_rule_matches (_rules second) (buffer second) (pos (skip_ws second))
  /\ get_pos (skip_ws second) = (0, -7)
  /\ snd (__next__ second)
     = Raise (LexerError (diagnostic 0 (-7) (lit "#") []))
  /\ str_of_int (-7) = lit "-7"
  /\ snd (__next__ (setup sample_lexer (lit "#") true))
     = Raise (LexerError (diagnostic 0 0 (lit "#") [])).
Proof.
  cbv zeta.
  split; [reflexivity|]. split; [reflexivity|].
  split; [vm_compute; repeat constructor|].
  split; [reflexivity|]. split; [vm_compute; reflexivity|].
  split; [reflexivity|]. vm_compute. reflexivity.
Qed.

(** ** A whole session *)

(** The rules and the whitespace pattern behave as anchored matches, the
    actions return their token, and the cursor is inside the buffer. *)
Definition covered (self : Lexer) : Prop :=
  anchored (_ws_pattern self)
  /\ Forall (fun r => anchored (pattern (snd r))
                      /\ returns_token (action (snd r))) (_rules self)
  /\ in_buffer self.

Lemma for_rules_returning_token (rules : list (str * PatternAction))
    (self : Lexer) :
  Forall (fun r => anchored (pattern (snd r))
                   /\ returns_token (action (snd r))) rules ->
  in_buffer self ->
  for_rules rules (buffer self) self = None
  \/ exists name m,
       for_rules rules (buffer self) self
       = Some (set_pos self (m_end m),
               Ok (VToken (Token.mk (group0 (buffer self) m) name
                             (get_pos self))))
       /\ m_start m = pos self
       /\ pos self <= m_end m <= len (buffer self).
Proof.
  intros Hall Hin.
  induction Hall as [|[name pa] rest [Hanch Hret] _ IH]; [now left|].
  cbn in *.
  destruct (match_ (pattern pa) (buffer self) (pos self)) as [m|] eqn:Hm;
    [|exact IH].
  right. exists name, m.
  destruct (Hanch _ _ _ Hin Hm) as [Hstart Hend].
  unfold on_hit. rewrite Hret. auto.
Qed.

(** One call of [__next__] in a covered session: the end of input, an error,
    or a token whose value is the text from the offset after the skip to the
    new [pos]. *)
Lemma next_cases (self : Lexer) :
  covered self ->
  let at_ := skip_ws self in
  (pos at_ = len (buffer self)
   /\ __next__ self = (at_, Raise StopIteration))
  \/ (exists e, e <> StopIteration /\ __next__ self = (at_, Raise e))
  \/ (exists name m,
        __next__ self
        = (set_pos at_ (m_end m),
           Ok (VToken (Token.mk (py_slice (buffer self) (pos at_) (m_end m))
                         name (get_pos at_))))
        /\ pos at_ <= m_end m <= len (buffer self)).
Proof.
  intros (Hws & Hall & Hin) at_.
  pose proof (skip_ws_pos self Hws Hin) as Hat. fold at_ in Hat.
  destruct (skip_ws_frame self) as (Hb & _ & Hr & _ & _). fold at_ in Hb, Hr.
  unfold __next__, _token. fold at_.
  destruct (Z.leb_spec (len (buffer self)) (pos at_)) as [Hend|Hend].
  - left. split; [lia|reflexivity].
  - right.
    destruct (for_rules_returning_token (_rules self) at_) as [Hn|Hy].
    + exact Hall.
    + unfold in_buffer in *. rewrite Hb. lia.
    + rewrite Hb in Hn. rewrite Hn.
      destruct (error_raises at_) as (e & He & Herr). rewrite Herr.
      left. now exists e.
    + destruct Hy as (name & m & Hf & Hstart & Hm).
      rewrite Hb in Hf, Hm. rewrite Hf. cbn [is_none].
      right. exists name, m. split; [|exact Hm].
      unfold group0. now rewrite Hstart.
Qed.

Lemma covered_set_pos (self : Lexer) (p : Z) :
  covered self -> 0 <= p <= len (buffer self) ->
  covered (set_pos (skip_ws self) p).
Proof.
  intros (Hws & Hall & Hin) Hp.
  destruct (skip_ws_frame self) as (Hb & _ & Hr & _ & Hw).
  split; [|split].
  - cbn. now rewrite Hw.
  - cbn. now rewrite Hr.
  - unfold in_buffer. cbn. now rewrite Hb.
Qed.

(** What a covered session that runs to [StopIteration] has consumed, from
    any offset on: the rest of the buffer. *)
Lemma pieces_rest (fuel : nat) (self final : Lexer) (tokens : list Value) :
  covered self ->
  drain fuel self = (final, tokens, Stopped) ->
  yielded (pieces fuel self) = tokens
  /\ List.concat (map text_of (pieces fuel self))
     = py_slice (buffer self) (pos self) (len (buffer self)).
Proof.
  revert self final tokens.
  induction fuel as [|fuel IH]; intros self final tokens Hcov Hdrain;
    [discriminate|].
  pose proof Hcov as (Hws & _ & Hin). unfold in_buffer in Hin.
  pose proof (skip_ws_pos self Hws Hin) as Hat.
  cbn [drain pieces] in *. unfold ws_run.
  destruct (next_cases self Hcov)
    as [[Hend Hn]|[(e & He & Hn)|(name & m & Hn & Hm)]];
    rewrite Hn in *.
  - inversion Hdrain; subst. cbn. rewrite app_nil_r, Hend. now split.
  - destruct e; try discriminate. contradiction.
  - destruct (drain fuel _) as [[final' tokens'] o] eqn:Hrest.
    inversion Hdrain; subst.
    assert (Hm' : 0 <= m_end m <= len (buffer self)) by lia.
    destruct (IH _ _ _ (covered_set_pos self (m_end m) Hcov Hm') Hrest)
      as [Hy Hc].
    destruct (skip_ws_frame self) as (Hb & _).
    cbn [yielded map text_of List.concat Token.value]. rewrite Hy, Hc.
    split; [reflexivity|]. cbn [set_pos with_cursor cursor buffer pos].
    rewrite Hb, py_slice_app by lia. apply py_slice_app; lia.
Qed.

(** C3. For a registry whose patterns are anchored matches and whose
    actions return their token, and an input over which the session runs to
    [StopIteration], the whitespace runs skipped and the values of the
    tokens yielded, taken in order, concatenate to the input. *)
Theorem tokens_and_whitespace_rebuild_input (self : Lexer) (input : str)
    (w : bool) (fuel : nat) (final : Lexer) (tokens : list Value) :
  anchored (_ws_pattern self) ->
  Forall (fun r => anchored (pattern (snd r))
                   /\ returns_token (action (snd r))) (_rules self) ->
  drain fuel (setup self input w) = (final, tokens, Stopped) ->
  yielded (pieces fuel (setup self input w)) = tokens
  /\ List.concat (map text_of (pieces fuel (setup self input w))) = input.
Proof.
  intros Hws Hall Hdrain.
  assert (Hcov : covered (setup self input w)).
  { split; [exact Hws|split; [exact Hall|]].
    unfold in_buffer. cbn. pose proof (len_nonneg input). lia. }
  destruct (pieces_rest _ _ _ _ Hcov Hdrain) as [Hy Hc].
  split; [exact Hy|]. rewrite Hc. apply py_slice_all.
Qed.

(** ** The patterns of the examples are anchored *)

Lemma span_le (cls : ascii -> bool) (s : str) :
  (span cls s <= List.length s)%nat.
Proof.
  induction s as [|x t IH]; cbn; [lia|].
  destruct (cls x); lia.
Qed.

Lemma class_plus_consuming (cls : ascii -> bool) :
  consuming (class_plus cls).
Proof.
  intros subject i m. cbn.
  set (p := Z.max 0 (Z.min i (len subject))).
  pose proof (span_le cls (skipn (Z.to_nat p) subject)) as Hle.
  rewrite length_skipn in Hle.
  pose proof (len_nonneg subject) as Hn. unfold len in *.
  destruct (span cls _) as [|n] eqn:Hs; [discriminate|].
  intros H. inversion H; subst; cbn. lia.
Qed.

Lemma class_plus_anchored (cls : ascii -> bool) :
  anchored (class_plus cls).
Proof.
  intros subject i m Hi Hm.
  pose proof (class_plus_consuming cls subject i m Hm) as Hend.
  split; [|lia].
  cbn in Hm. destruct (span cls _); [discriminate|].
  inversion Hm; subst; cbn. lia.
Qed.

Lemma sample_rules_covered :
  Forall (fun r => anchored (pattern (snd r))
                   /\ returns_token (action (snd r))) (_rules sample_lexer).
Proof.
  unfold sample_lexer. cbn.
  repeat (constructor;
          [split; [apply class_plus_anchored | intros c t; reflexivity]|]).
  constructor.
Qed.

(** ** The theorems at concrete inputs *)

Lemma tokens_and_whitespace_rebuild_input_witness :
  let input := lit " 12 ab" ++ nl ++ lit " 7  " in
  let session := setup sample_lexer input true in
  yielded (pieces 10 session)
  = [VToken (Token.mk (lit "12") (lit "DIGIT") (0, 1));
     VToken (Token.mk (lit "ab") (lit "ID") (0, 4));
     VToken (Token.mk (lit "7") (lit "DIGIT") (1, 0))]
  /\ List.concat (map text_of (pieces 10 session)) = input.
Proof.
  cbv zeta.
  eapply (tokens_and_whitespace_rebuild_input sample_lexer _ true 10).
  - apply class_plus_anchored.
  - exact sample_rules_covered.
  - vm_compute. reflexivity.
Defined.

Lemma first_registered_rule_wins_witness :
  let self := setup blank_lexer (lit "12ab") true in
  let digit_first := [(lit "DIGIT", digit_rule); (lit "WORD", word_rule)] in
  let word_first := [(lit "WORD", word_rule); (lit "DIGIT", digit_rule)] in
  _token (set_rules self digit_first)
  = on_hit (lit "12ab") (lit "DIGIT") digit_rule
      {| m_start := 0; m_end := 2 |} (set_rules (skip_ws self) digit_first)
  /\ _token (set_rules self word_first)
     = on_hit (lit "12ab") (lit "WORD") word_rule
         {| m_start := 0; m_end := 4 |} (set_rules (skip_ws self) word_first).
Proof.
  cbv zeta.
  apply (first_registered_rule_wins (setup blank_lexer (lit "12ab") true)
           [] [] [] (lit "DIGIT") (lit "WORD") digit_rule word_rule).
  - vm_compute. reflexivity.
  - constructor.
  - reflexivity.
  - reflexivity.
Defined.

Lemma token_built_then_action_then_advance_witness :
  let self := setup sample_lexer (lit " 12 ab") true in
  let token := Token.mk (lit "12") (lit "DIGIT") (0, 1) in
  _token self = (set_pos (skip_ws self) 3, Ok (VToken token))
  /\ pos (fst (_token self)) = 3
  /\ (is_none (VToken token) = false -> snd (__next__ self) = Ok (VToken token)).
Proof.
  cbv zeta.
  exact (token_built_then_action_then_advance
           (setup sample_lexer (lit " 12 ab") true)
           [] [(lit "ID", {| pattern := class_plus is_lower;
                             action := return_token "ID" |})]
           (lit "DIGIT")
           {| pattern := class_plus is_digit;
              action := return_token "DIGIT" |}
           {| m_start := 1; m_end := 3 |}
           eq_refl eq_refl (Forall_nil _) eq_refl
           _ (Ok (VToken (Token.mk (lit "12") (lit "DIGIT") (0, 1))))
           eq_refl).
Defined.

Lemma default_error_message_witness :
  let session := setup sample_lexer (lit "x" ++ nl ++ lit "y #") true in
  let self := fst (__next__ (fst (__next__ session))) in
  snd (__next__ self)
  = Raise (LexerError (diagnostic 1 2 (lit "y #") (lit "  "))).
Proof.
  cbv zeta.
  destruct (default_error_message
              (fst (__next__
                      (fst (__next__
                              (setup sample_lexer
                                 (lit "x" ++ nl ++ lit "y #") true))))))
    as (source_line & Hline & Hnext & _).
  - reflexivity.
  - vm_compute. reflexivity.
  - unfold no_rule_matches. vm_compute. repeat constructor.
  - vm_compute in Hline. inversion Hline; subst source_line.
    rewrite Hnext. reflexivity.
Defined.

Lemma end_of_input_stops_witness :
  let self := setup sample_lexer (lit "  ") true in
  __next__ self = (skip_ws self, Raise StopIteration)
  /\ drain 5 self = (skip_ws self, [], Stopped)
  /\ __next__ (skip_ws self) = (skip_ws self, Raise StopIteration).
Proof.
  cbv zeta.
  destruct (end_of_input_stops (setup sample_lexer (lit "  ") true))
    as (Hnext & Hdrain & Hagain).
  - vm_compute. intros H. discriminate H.
  - split; [exact Hnext|split; [apply (Hdrain 4%nat)|]].
    apply Hagain. apply class_plus_consuming.
Defined.

Lemma on_match_bad_pattern_keeps_registry_witness :
  on_match sample_compile sample_lexer (lit "(") (return_token "PAREN")
  = (sample_lexer,
     Raise (ReError (lit "missing ), unterminated subpattern")))
  /\ _rules (fst (on_match sample_compile sample_lexer (lit "(")
                    (return_token "PAREN")))
     = _rules sample_lexer.
Proof.
  apply on_match_bad_pattern_keeps_registry. reflexivity.
Defined.

Lemma action_returning_none_stops_witness :
  let self :=
    setup (set_rules blank_lexer [(lit "DIGIT", silent_digit_rule)])
      (lit "12 ab") true in
  snd (__next__ self) = Raise StopIteration
  /\ pos (fst (__next__ self)) = 2
  /\ 2 < len (buffer self)
  /\ drain 5 self = (fst (__next__ self), [], Stopped).
Proof.
  cbv zeta.
  destruct (action_returning_none_stops
              (setup (set_rules blank_lexer [(lit "DIGIT", silent_digit_rule)])
                 (lit "12 ab") true)
              [] [] (lit "DIGIT") silent_digit_rule
              {| m_start := 0; m_end := 2 |}
              (cursor (setup blank_lexer (lit "12 ab") true)))
    as (Hnext & Hpos & Hdrain).
  - reflexivity.
  - vm_compute. reflexivity.
  - constructor.
  - reflexivity.
  - reflexivity.
  - rewrite (Hdrain 4%nat), Hnext.
    split; [reflexivity|split; [exact Hpos|split; reflexivity]].
Defined.

(** The lexer of the examples is the one [__init__] builds. *)
Lemma init_sample : __init__ sample_compile = Ok blank_lexer.
Proof. reflexivity. Qed.

(** * Further properties of the lexer *)

(** ** Records and names *)

Lemma set_pos_same (self : Lexer) : set_pos self (pos self) = self.
Proof. now destruct self as [[b p c l w] f ws r]. Qed.

Lemma with_cursor_same (self : Lexer) : with_cursor self (cursor self) = self.
Proof. now destruct self as [c f ws r]. Qed.

Lemma str_eqb_eq (a b : str) : str_eqb a b = true <-> a = b.
Proof.
  revert b. induction a as [|x a IH]; intros [|y b]; cbn; split;
    try discriminate; try reflexivity.
  - intros H. apply andb_true_iff in H as [Hxy Hab].
    apply Ascii.eqb_eq in Hxy. apply IH in Hab. now subst.
  - intros H. inversion H; subst. rewrite Ascii.eqb_refl.
    now apply IH.
Qed.

Lemma str_eqb_neq (a b : str) : str_eqb a b = false <-> a <> b.
Proof.
  rewrite <- str_eqb_eq. destruct (str_eqb a b); split; congruence.
Qed.

(** ** The rule loop, read backwards *)

(** When the loop returns, it does so on a registered rule whose pattern
    matched at [pos]. *)
Lemma for_rules_some (rules : list (str * PatternAction)) (b : str)
    (self : Lexer) (r : Lexer * Result Value) :
  for_rules rules b self = Some r ->
  exists name pa m,
    In (name, pa) rules
    /\ match_ (pattern pa) b (pos self) = Some m
    /\ r = on_hit b name pa m self.
Proof.
  induction rules as [|[name pa] rest IH]; cbn; [discriminate|].
  destruct (match_ (pattern pa) b (pos self)) as [m|] eqn:Hm.
  - intros H. inversion H. exists name, pa, m. auto.
  - intros H. destruct (IH H) as (n & p & m & Hin & Hm' & Hr).
    exists n, p, m. auto.
Qed.

(** A value that [__next__] returns comes out of the loop. *)
Lemma next_ok_from_rule (self self' : Lexer) (v : Value) :
  __next__ self = (self', Ok v) ->
  pos (skip_ws self) < len (buffer self)
  /\ exists name pa m,
       In (name, pa) (_rules self)
       /\ match_ (pattern pa) (buffer self) (pos (skip_ws self)) = Some m
       /\ on_hit (buffer self) name pa m (skip_ws self) = (self', Ok v).
Proof.
  unfold __next__, _token.
  destruct (Z.leb_spec (len (buffer self)) (pos (skip_ws self))) as [H|H];
    [discriminate|].
  destruct (for_rules _ _ _) as [[s r]|] eqn:Hf.
  - destruct r as [t|e]; [|discriminate].
    destruct (is_none t); [discriminate|].
    intros Heq. inversion Heq; subst. split; [exact H|].
    destruct (for_rules_some _ _ _ _ Hf) as (name & pa & m & Hin & Hm & Hr).
    exists name, pa, m. auto.
  - destruct (error_raises (skip_ws self)) as (e & _ & He). rewrite He.
    discriminate.
Qed.

(** X1. A call of [__next__] that returns a value has moved [pos] forward,
    to the end of a match inside the buffer, whatever the action did to the
    lexer. *)
Theorem next_moves_forward (self self' : Lexer) (v : Value) :
  anchored (_ws_pattern self) ->
  Forall (fun r => anchored (pattern (snd r))) (_rules self) ->
  in_buffer self ->
  __next__ self = (self', Ok v) ->
  pos self <= pos self' <= len (buffer self).
Proof.
  intros Hws Hall Hin Hnext.
  pose proof (skip_ws_pos self Hws Hin) as Hat. unfold in_buffer in Hin.
  destruct (next_ok_from_rule _ _ _ Hnext)
    as (_ & name & pa & m & Hmem & Hm & Hhit).
  rewrite Forall_forall in Hall. specialize (Hall _ Hmem). cbn in Hall.
  assert (Hrange : 0 <= pos (skip_ws self) <= len (buffer self)) by lia.
  destruct (Hall _ _ _ Hrange Hm) as [_ Hend].
  unfold on_hit in Hhit.
  destruct (call _ _ _) as [c [t|e]]; [|discriminate].
  inversion Hhit; subst. cbn. lia.
Qed.

(** X2. Whatever [__next__] returns was built from a registered rule: the
    value handed to the action is the text matched at the offset reached
    after the whitespace skip, the type is the name the rule is registered
    under, and when the action returns its token that token is the result
    and [pos] is the end of the match. *)
Theorem yielded_token_comes_from_a_rule (self self' : Lexer) (v : Value) :
  Forall (fun r => returns_token (action (snd r))) (_rules self) ->
  __next__ self = (self', Ok v) ->
  exists name pa m,
    In (name, pa) (_rules self)
    /\ match_ (pattern pa) (buffer self) (pos (skip_ws self)) = Some m
    /\ v = VToken (Token.mk (group0 (buffer self) m) name
                     (get_pos (skip_ws self)))
    /\ self' = set_pos (skip_ws self) (m_end m).
Proof.
  intros Hall Hnext.
  destruct (next_ok_from_rule _ _ _ Hnext)
    as (_ & name & pa & m & Hmem & Hm & Hhit).
  rewrite Forall_forall in Hall. specialize (Hall _ Hmem). cbn in Hall.
  unfold on_hit in Hhit. rewrite Hall in Hhit.
  inversion Hhit; subst. exists name, pa, m. auto.
Qed.

(** ** Invariants of a session *)

Lemma covered_skip_ws (self : Lexer) : covered self -> covered (skip_ws self).
Proof.
  intros Hcov. pose proof Hcov as (Hws & _ & Hin).
  pose proof (skip_ws_pos self Hws Hin) as Hat. unfold in_buffer in Hin.
  rewrite <- (set_pos_same (skip_ws self)).
  apply covered_set_pos; [exact Hcov|lia].
Qed.

Lemma skip_ws_line_start (self : Lexer) :
  anchored (_ws_pattern self) -> in_buffer self ->
  _line_start self <= pos self ->
  _line_start (skip_ws self) <= pos (skip_ws self).
Proof.
  intros Hws Hin Hls. unfold in_buffer in Hin. unfold skip_ws.
  destruct (_ignore_ws self); [|lia].
  destruct (match_ _ _ _) as [m|] eqn:Hm; [|lia].
  destruct (Hws _ _ _ Hin Hm) as [_ Hend].
  destruct (str_contains _ _); cbn; lia.
Qed.

Lemma newlines_slice_mono (s : str) (p q : Z) :
  0 <= p <= q -> q <= len s ->
  newlines (py_slice s 0 p) <= newlines (py_slice s 0 q).
Proof.
  intros Hpq Hq.
  rewrite <- (py_slice_app s 0 p q) by lia.
  unfold newlines. rewrite count_occ_app. lia.
Qed.

(** X3. In a session whose patterns are anchored and whose actions return
    their token, a call of [__next__], whatever its outcome, leaves the
    buffer and the registry alone, keeps the cursor inside the buffer, moves
    neither [pos] nor the line number backwards, and keeps the column from
    going negative if it was not. *)
Theorem next_keeps_session_invariants (self : Lexer) :
  covered self ->
  let self' := fst (__next__ self) in
  covered self'
  /\ buffer self' = buffer self
  /\ _rules self' = _rules self
  /\ pos self <= pos self'
  /\ fst (get_pos self) <= fst (get_pos self')
  /\ (_line_start self <= pos self -> 0 <= snd (get_pos self')).
Proof.
  intros Hcov.
  pose proof Hcov as (Hws & _ & Hin).
  pose proof (skip_ws_pos self Hws Hin) as Hat.
  destruct (skip_ws_frame self) as (Hb & _ & Hr & _ & _).
  unfold in_buffer in Hin.
  assert (Hgoal : forall p,
             pos (skip_ws self) <= p <= len (buffer self) ->
             let self' := set_pos (skip_ws self) p in
             covered self'
             /\ buffer self' = buffer self
             /\ _rules self' = _rules self
             /\ pos self <= pos self'
             /\ fst (get_pos self) <= fst (get_pos self')
             /\ (_line_start self <= pos self -> 0 <= snd (get_pos self'))).
  { intros p Hp self'. subst self'.
    split; [apply covered_set_pos; [exact Hcov|lia]|].
    rewrite !get_pos_line_column.
    cbn [set_pos with_cursor cursor buffer pos _line_start _rules fst snd].
    rewrite Hb, Hr. repeat split; try lia.
    - apply newlines_slice_mono; lia.
    - intros Hls.
      pose proof (skip_ws_line_start self Hws Hin Hls). lia. }
  cbv zeta.
  destruct (next_cases self Hcov)
    as [[Hend Hn]|[(e & He & Hn)|(name & m & Hn & Hm)]];
    rewrite Hn; cbn [fst].
  - rewrite <- (set_pos_same (skip_ws self)). apply Hgoal. lia.
  - rewrite <- (set_pos_same (skip_ws self)). apply Hgoal. lia.
  - apply Hgoal. lia.
Qed.

(** One step of a session whose patterns also match at least one
    character: a token costs at least one character of the buffer. *)
Lemma consuming_step (self self' : Lexer) (v : Value) :
  covered self ->
  Forall (fun r => consuming (pattern (snd r))) (_rules self) ->
  __next__ self = (self', Ok v) ->
  covered self'
  /\ Forall (fun r => consuming (pattern (snd r))) (_rules self')
  /\ buffer self' = buffer self
  /\ pos self < pos self' <= len (buffer self).
Proof.
  intros Hcov Hcons Hnext.
  pose proof Hcov as (Hws & Hall & Hin).
  pose proof (skip_ws_pos self Hws Hin) as Hat. unfold in_buffer in Hin.
  destruct (skip_ws_frame self) as (Hb & _ & Hr & _ & _).
  destruct (next_ok_from_rule _ _ _ Hnext)
    as (_ & name & pa & m & Hmem & Hm & Hhit).
  rewrite Forall_forall in Hall. destruct (Hall _ Hmem) as [_ Hret].
  pose proof Hcons as Hcons'.
  rewrite Forall_forall in Hcons'. specialize (Hcons' _ Hmem).
  cbn in Hret, Hcons'. apply Hcons' in Hm.
  unfold on_hit in Hhit. rewrite Hret in Hhit. inversion Hhit; subst.
  rewrite with_cursor_same.
  split; [apply covered_set_pos; [exact Hcov|lia]|].
  cbn [set_pos with_cursor cursor buffer pos _rules].
  rewrite Hb, Hr. repeat split; auto; lia.
Qed.

(** X4. When no pattern can match the empty string, a session is finite:
    from any state, as many calls of [__next__] as there are characters
    left, and one more, reach [StopIteration] or an error, and no more
    tokens are yielded than characters are left. *)
Theorem session_ends_within_buffer_length (fuel : nat) (self : Lexer) :
  covered self ->
  Forall (fun r => consuming (pattern (snd r))) (_rules self) ->
  (Z.to_nat (len (buffer self) - pos self) < fuel)%nat ->
  snd (drain fuel self) <> OutOfFuel
  /\ (List.length (snd (fst (drain fuel self)))
      <= Z.to_nat (len (buffer self) - pos self))%nat.
Proof.
  revert self. induction fuel as [|fuel IH]; intros self Hcov Hcons Hfuel;
    [lia|].
  cbn [drain].
  destruct (__next__ self) as [self' [v|e]] eqn:Hnext.
  - destruct (consuming_step _ _ _ Hcov Hcons Hnext)
      as (Hcov' & Hcons' & Hb & Hpos).
    assert (Hfuel' : (Z.to_nat (len (buffer self') - pos self') < fuel)%nat)
      by (rewrite Hb; lia).
    destruct (IH self' Hcov' Hcons' Hfuel') as [Hout Hlen].
    destruct (drain fuel self') as [[final tokens] o].
    cbn in *. rewrite Hb in Hlen. split; [exact Hout|lia].
  - destruct e; cbn; split; (discriminate || lia).
Qed.

(** X5. A rule that matches the empty string where nothing is to be
    skipped stalls the session: [pos] stays where it is and every further
    call yields the same token again, so a loop over the lexer never ends. *)
Theorem empty_match_repeats_forever (self : Lexer)
    (l1 l2 : list (str * PatternAction)) (name : str) (pa : PatternAction)
    (m : Match) (fuel : nat) :
  skip_ws self = self ->
  _rules self = l1 ++ (name, pa) :: l2 ->
  pos self < len (buffer self) ->
  no_rule_matches l1 (buffer self) (pos self) ->
  match_ (pattern pa) (buffer self) (pos self) = Some m ->
  m_end m = pos self ->
  returns_token (action pa) ->
  drain fuel self
  = (self,
     repeat (VToken (Token.mk (group0 (buffer self) m) name (get_pos self)))
       fuel,
     OutOfFuel).
Proof.
  intros Hskip Hrules Hpos Hno Hm Hend Hret.
  assert (Hnext : __next__ self
                  = (self, Ok (VToken (Token.mk (group0 (buffer self) m)
                                         name (get_pos self))))).
  { unfold __next__.
    rewrite (token_first_match self l1 l2 name pa m Hrules);
      rewrite ?Hskip; auto.
    unfold on_hit. rewrite Hret, with_cursor_same, Hend, set_pos_same.
    reflexivity. }
  induction fuel as [|fuel IH]; [reflexivity|].
  cbn [drain repeat]. now rewrite Hnext, IH.
Qed.

(** X6. On the empty buffer a session yields nothing and raises nothing,
    whatever rules and error function the lexer holds. *)
Theorem empty_input_yields_nothing (self : Lexer) (w : bool) (fuel : nat) :
  anchored (_ws_pattern self) ->
  snd (fst (drain (S fuel) (setup self [] w))) = []
  /\ snd (drain (S fuel) (setup self [] w)) = Stopped
  /\ pos (fst (fst (drain (S fuel) (setup self [] w)))) = 0.
Proof.
  intros Hws.
  assert (Hin : in_buffer (setup self [] w)) by (unfold in_buffer; cbn; lia).
  pose proof (skip_ws_pos (setup self [] w) Hws Hin) as Hat.
  cbn [setup set_buffer set_pos set_col_no set_ignore_ws with_cursor cursor
       buffer pos] in Hat.
  change (len (@nil ascii)) with 0 in Hat.
  cbn [drain]. unfold __next__.
  rewrite token_exhausted by (cbn; lia).
  cbn. repeat split. lia.
Qed.

(** ** The registry *)

Lemma dict_setitem_keys {V : Type} (k x : str) (v : V) (d : list (str * V)) :
  In x (map fst (dict_setitem k v d)) -> x = k \/ In x (map fst d).
Proof.
  induction d as [|[k' v'] rest IH]; cbn.
  - intros [H|[]]. now left.
  - destruct (str_eqb k' k) eqn:Hk; cbn.
    + intros [H|H]; auto.
    + intros [H|H]; auto. destruct (IH H); auto.
Qed.

Lemma dict_setitem_nodup {V : Type} (k : str) (v : V) (d : list (str * V)) :
  NoDup (map fst d) -> NoDup (map fst (dict_setitem k v d)).
Proof.
  induction d as [|[k' v'] rest IH]; cbn; intros Hnd.
  - constructor; [intros []|constructor].
  - inversion Hnd as [|? ? Hnotin Hrest]; subst.
    destruct (str_eqb k' k) eqn:Hk; cbn; [exact Hnd|].
    constructor; [|now apply IH].
    intros Hin. apply dict_setitem_keys in Hin as [->|Hin]; [|contradiction].
    apply str_eqb_neq in Hk. contradiction.
Qed.

Lemma dict_setitem_present {V : Type} (k : str) (v old : V)
    (l1 l2 : list (str * V)) :
  ~ In k (map fst l1) ->
  dict_setitem k v (l1 ++ (k, old) :: l2) = l1 ++ (k, v) :: l2.
Proof.
  induction l1 as [|[k' v'] l1 IH]; cbn; intros Hnotin.
  - assert (H : str_eqb k k = true) by now apply str_eqb_eq.
    now rewrite H.
  - assert (H : str_eqb k' k = false).
    { apply str_eqb_neq. intros ->. apply Hnotin. now left. }
    rewrite H, IH; [reflexivity|]. intros Hin. apply Hnotin. now right.
Qed.

(** X7. Registration never leaves two rules under one name: a registry
    whose names are distinct has distinct names after [on_match], whether
    the pattern compiles or not. *)
Theorem on_match_keeps_names_distinct (re_compile : str -> Result Pattern)
    (self : Lexer) (source : str) (func : Func Token.t) :
  NoDup (map fst (_rules self)) ->
  NoDup (map fst (_rules (fst (on_match re_compile self source func)))).
Proof.
  intros Hnd. unfold on_match.
  destruct (re_compile source); [|exact Hnd].
  cbn. now apply dict_setitem_nodup.
Qed.

(** X8. A successful registration stores the compiled pattern and the
    function under the function's name and returns the function. A name
    that is already registered keeps its place in the order and loses its
    old rule; a new name goes to the end. No other rule is touched. *)
Theorem on_match_stores_rule_under_name (re_compile : str -> Result Pattern)
    (self : Lexer) (source : str) (func : Func Token.t) (p : Pattern) :
  re_compile source = Ok p ->
  let rule := {| pattern := p; action := func |} in
  let registered := on_match re_compile self source func in
  snd registered = Ok func
  /\ cursor (fst registered) = cursor self
  /\ _error_func (fst registered) = _error_func self
  /\ (forall l1 old l2,
        _rules self = l1 ++ (__name__ func, old) :: l2 ->
        ~ In (__name__ func) (map fst l1) ->
        _rules (fst registered) = l1 ++ (__name__ func, rule) :: l2)
  /\ (~ In (__name__ func) (map fst (_rules self)) ->
      _rules (fst registered) = _rules self ++ [(__name__ func, rule)]).
Proof.
  intros Hc rule registered. subst registered. unfold on_match.
  rewrite Hc. cbn. repeat split.
  - intros l1 old l2 Hrules Hnotin. rewrite Hrules.
    now apply dict_setitem_present.
  - intros Hfresh. apply dict_setitem_fresh.
    apply Forall_forall. intros [k v] Hin. cbn.
    apply str_eqb_neq. intros ->. apply Hfresh.
    apply (in_map fst) in Hin. exact Hin.
Qed.

(** ** The line quoted by the diagnostic *)

Lemma str_split_nonempty (s : str) : str_split newline s <> [].
Proof.
  destruct s as [|x t]; cbn [str_split]; [discriminate|].
  destruct (Ascii.eqb x newline); [discriminate|].
  destruct (str_split newline t); discriminate.
Qed.

Lemma count_newline_snoc (b : str) :
  count_occ ascii_dec (b ++ [newline]) newline
  = S (count_occ ascii_dec b newline).
Proof.
  rewrite count_occ_app, (count_occ_cons_eq ascii_dec [] eq_refl). cbn. lia.
Qed.

Lemma str_split_nth (s : str) :
  forall (k : nat) (text : str),
    nth_error (str_split newline s) k = Some text ->
    exists before after,
      s = before ++ text ++ after
      /\ count_occ ascii_dec before newline = k
      /\ ~ In newline text
      /\ (before = [] \/ exists b, before = b ++ [newline])
      /\ (after = [] \/ exists a, after = newline :: a).
Proof.
  induction s as [|x t IH]; intros k text Hnth.
  - destruct k as [|[|k]]; cbn in Hnth; try discriminate.
    inversion Hnth; subst. exists [], [].
    split; [reflexivity|split; [reflexivity|split; [intros []|auto]]].
  - cbn [str_split] in Hnth.
    destruct (Ascii.eqb x newline) eqn:Hx.
    + apply Ascii.eqb_eq in Hx. subst x.
      destruct k as [|k]; cbn [nth_error] in Hnth.
      * inversion Hnth; subst. exists [], (newline :: t).
        split; [reflexivity|split; [reflexivity|split; [intros []|]]].
        split; [now left|right; now exists t].
      * destruct (IH _ _ Hnth) as (b & a & Hs & Hc & Hno & Hb & Ha).
        exists (newline :: b), a. subst t.
        split; [reflexivity|split; [|split; [exact Hno|split; [|exact Ha]]]].
        -- rewrite (count_occ_cons_eq ascii_dec b eq_refl). now rewrite Hc.
        -- right. destruct Hb as [->|[b' ->]];
             [now exists [] | now exists (newline :: b')].
    + apply Ascii.eqb_neq in Hx.
      destruct (str_split newline t) as [|h r] eqn:Hsplit;
        [now apply str_split_nonempty in Hsplit|].
      destruct k as [|k]; cbn [nth_error] in Hnth.
      * inversion Hnth; subst text.
        destruct (IH 0%nat h eq_refl) as (b & a & Hs & Hc & Hno & Hb & Ha).
        assert (b = []) as ->.
        { destruct Hb as [->|[b' ->]]; [reflexivity|].
          rewrite count_newline_snoc in Hc. discriminate. }
        exists [], a. subst t.
        split; [reflexivity|split; [reflexivity|split; [|split; [now left|exact Ha]]]].
        intros [Hin|Hin]; [now apply Hx|contradiction].
      * destruct (IH (S k) text Hnth)
          as (b & a & Hs & Hc & Hno & Hb & Ha).
        exists (x :: b), a. subst t.
        split; [reflexivity|split; [|split; [exact Hno|split; [|exact Ha]]]].
        -- now rewrite (count_occ_cons_neq ascii_dec b Hx).
        -- right. destruct Hb as [->|[b' ->]];
             [discriminate | now exists (x :: b')].
Qed.

Lemma line_contains_offset (before text after : str) (p : nat) :
  (p <= List.length (before ++ text ++ after))%nat ->
  count_occ ascii_dec (firstn p (before ++ text ++ after)) newline
  = count_occ ascii_dec before newline ->
  ~ In newline text ->
  (before = [] \/ exists b, before = b ++ [newline]) ->
  (after = [] \/ exists a, after = newline :: a) ->
  (List.length before <= p <= List.length before + List.length text)%nat.
Proof.
  intros Hp Hcount Hno Hb Ha.
  assert (Hnl : count_occ ascii_dec [newline] newline = 1%nat)
    by apply (count_occ_cons_eq ascii_dec [] eq_refl).
  assert (Htext : count_occ ascii_dec text newline = 0%nat)
    by now apply count_occ_not_In.
  split.
  - destruct (Nat.le_gt_cases (List.length before) p) as [|Hlt]; [assumption|].
    destruct Hb as [->|[b ->]]; [cbn in Hlt; lia|].
    rewrite length_app in Hlt. cbn in Hlt.
    rewrite <- app_assoc, firstn_app in Hcount.
    replace (p - List.length b)%nat with O in Hcount by lia.
    cbn [firstn] in Hcount. rewrite app_nil_r in Hcount.
    pose proof (count_occ_firstn_le newline p b).
    rewrite count_occ_app, Hnl in Hcount. lia.
  - destruct (Nat.le_gt_cases p (List.length before + List.length text))
      as [|Hgt]; [assumption|].
    rewrite !length_app in Hp.
    destruct Ha as [->|[a ->]]; [cbn in Hp; lia|].
    replace (before ++ text ++ newline :: a)
      with ((before ++ text ++ [newline]) ++ a) in Hcount
      by now rewrite <- !app_assoc.
    rewrite firstn_app in Hcount.
    rewrite firstn_all2 in Hcount
      by (rewrite !length_app; cbn; lia).
    rewrite !count_occ_app, Hnl, Htext in Hcount. lia.
Qed.

(** X9. The line that the default diagnostic quotes is the line of the
    buffer in which [pos] lies: the buffer is some text ending a line (or
    nothing), then the quoted line, which holds no newline, then a newline
    and more text (or nothing); [pos] is inside the quoted line or at its
    end, and the line number of the message counts the newlines before
    it. *)
Theorem diagnostic_quotes_the_line_of_pos (self : Lexer) :
  in_buffer self ->
  _error_func self = None ->
  exists before text after,
    buffer self = before ++ text ++ after
    /\ ~ In newline text
    /\ (before = [] \/ exists b, before = b ++ [newline])
    /\ (after = [] \/ exists a, after = newline :: a)
    /\ len before <= pos self <= len before + len text
    /\ newlines before = fst (get_pos self)
    /\ _error self
       = (self,
          Raise (LexerError
                   (diagnostic (fst (get_pos self)) (snd (get_pos self)) text
                      (repeat space (Z.to_nat (snd (get_pos self))))))).
Proof.
  intros Hin Hfunc. unfold in_buffer in Hin.
  rewrite get_pos_line_column. cbn [fst snd].
  pose proof (newlines_slice_le (buffer self) 0 (pos self)) as Hline.
  set (line := newlines (py_slice (buffer self) 0 (pos self))) in *.
  destruct (getitem_inside (str_split newline (buffer self)) line)
    as (text & Hnth & Hget).
  { unfold len. rewrite str_split_length. unfold newlines in Hline. lia. }
  destruct (str_split_nth _ _ _ Hnth)
    as (before & after & Hbuf & Hcount & Hno & Hb & Ha).
  assert (Hfirst : count_occ ascii_dec
                     (firstn (Z.to_nat (pos self)) (before ++ text ++ after))
                     newline
                   = count_occ ascii_dec before newline).
  { rewrite Hcount, <- Hbuf. subst line. unfold newlines.
    rewrite py_slice_inside by lia. cbn [Z.to_nat skipn].
    rewrite Z.sub_0_r. now rewrite Nat2Z.id. }
  pose proof (line_contains_offset before text after (Z.to_nat (pos self)))
    as Hoff.
  rewrite <- Hbuf in Hoff at 1. unfold len in Hin.
  specialize (Hoff ltac:(lia) Hfirst Hno Hb Ha).
  exists before, text, after.
  split; [exact Hbuf|split; [exact Hno|split; [exact Hb|split; [exact Ha|]]]].
  split; [unfold len; lia|]. split; [unfold newlines; lia|].
  unfold _error.
  rewrite Hfunc, get_pos_line_column. fold line.
  now rewrite Hget, format_diagnostic, str_repeat_space.
Qed.

(** ** Where the column counts from *)

(** X10. The first token after whitespace that holds a newline is reported
    at column 0, whatever blanks follow the newline: the skip puts
    [_line_start] at the end of the whole whitespace run. *)
Theorem token_after_newline_has_column_zero (self : Lexer)
    (l1 l2 : list (str * PatternAction)) (name : str) (pa : PatternAction)
    (w m : Match) :
  _ignore_ws self = true ->
  match_ (_ws_pattern self) (buffer self) (pos self) = Some w ->
  str_contains newline (group0 (buffer self) w) = true ->
  _rules self = l1 ++ (name, pa) :: l2 ->
  m_end w < len (buffer self) ->
  no_rule_matches l1 (buffer self) (m_end w) ->
  match_ (pattern pa) (buffer self) (m_end w) = Some m ->
  returns_token (action pa) ->
  snd (__next__ self)
  = Ok (VToken (Token.mk (group0 (buffer self) m) name
                  (newlines (py_slice (buffer self) 0 (m_end w)), 0))).
Proof.
  intros Hw Hws Hnl Hrules Hlen Hno Hm Hret.
  assert (Hskip : skip_ws self
                  = set_pos (set_line_start self (m_end w)) (m_end w)).
  { unfold skip_ws. now rewrite Hw, Hws, Hnl. }
  unfold __next__.
  rewrite (token_first_match self l1 l2 name pa m Hrules);
    rewrite ?Hskip; auto.
  unfold on_hit. rewrite Hret, get_pos_line_column. cbn.
  now rewrite Z.sub_diag.
Qed.

(** X11. With [ignore_ws] off nothing ever moves [_line_start]: a call of
    [__next__] leaves it as it was, even when the text matched holds
    newlines, so the column of every token is its distance from the same
    offset. *)
Theorem line_start_fixed_without_whitespace_skip (self : Lexer) :
  _ignore_ws self = false ->
  Forall (fun r => returns_token (action (snd r))) (_rules self) ->
  _line_start (fst (__next__ self)) = _line_start self
  /\ _ignore_ws (fst (__next__ self)) = false.
Proof.
  intros Hw Hall.
  assert (Hskip : skip_ws self = self) by (unfold skip_ws; now rewrite Hw).
  unfold __next__, _token. rewrite Hskip.
  destruct (len (buffer self) <=? pos self); [now cbn|].
  destruct (for_rules _ _ _) as [r|] eqn:Hf.
  - destruct (for_rules_some _ _ _ _ Hf) as (name & pa & m & Hmem & Hm & ->).
    rewrite Forall_forall in Hall. specialize (Hall _ Hmem). cbn in Hall.
    unfold on_hit. rewrite Hall. cbn. now split.
  - destruct (error_raises self) as (e & _ & He). rewrite He. now cbn.
Qed.

(** ** The further properties at concrete inputs *)

Lemma sample_session_covered (input : str) (w : bool) :
  covered (setup sample_lexer input w).
Proof.
  split; [apply class_plus_anchored|split; [exact sample_rules_covered|]].
  unfold in_buffer. cbn. pose proof (len_nonneg input). lia.
Qed.

Lemma sample_rules_consuming :
  Forall (fun r => consuming (pattern (snd r))) (_rules sample_lexer).
Proof.
  unfold sample_lexer. cbn.
  repeat (constructor; [apply class_plus_consuming|]). constructor.
Qed.

Lemma next_moves_forward_witness :
  let session :=
    setup (set_rules blank_lexer [(lit "WORD", rewinding_word_rule)])
      (lit "ab cd") true in
  let self := fst (__next__ session) in
  pos self = 2
  /\ pos self <= pos (fst (__next__ self)) <= len (buffer self).
Proof.
  cbv zeta. split; [reflexivity|].
  eapply next_moves_forward.
  - apply class_plus_anchored.
  - cbn. repeat (constructor; [apply class_plus_anchored|]). constructor.
  - unfold in_buffer. vm_compute. split; intros H; discriminate H.
  - vm_compute. reflexivity.
Defined.

Lemma yielded_token_comes_from_a_rule_witness :
  let self := setup sample_lexer (lit " 12 ab") true in
  exists name pa m,
    In (name, pa) (_rules self)
    /\ match_ (pattern pa) (buffer self) (pos (skip_ws self)) = Some m
    /\ VToken (Token.mk (lit "12") (lit "DIGIT") (0, 1))
       = VToken (Token.mk (group0 (buffer self) m) name
                   (get_pos (skip_ws self)))
    /\ fst (__next__ self) = set_pos (skip_ws self) (m_end m).
Proof.
  cbv zeta.
  apply (yielded_token_comes_from_a_rule
           (setup sample_lexer (lit " 12 ab") true)).
  - cbn. repeat (constructor; [intros c t; reflexivity|]). constructor.
  - reflexivity.
Defined.

Lemma next_keeps_session_invariants_witness :
  let self := setup sample_lexer (lit "12" ++ nl ++ lit "ab") true in
  let self' := fst (__next__ (fst (__next__ self))) in
  covered self'
  /\ buffer self' = buffer (fst (__next__ self))
  /\ _rules self' = _rules (fst (__next__ self))
  /\ pos (fst (__next__ self)) <= pos self'
  /\ fst (get_pos (fst (__next__ self))) <= fst (get_pos self')
  /\ (_line_start (fst (__next__ self)) <= pos (fst (__next__ self)) ->
      0 <= snd (get_pos self')).
Proof.
  cbv zeta.
  apply (next_keeps_session_invariants
           (fst (__next__
                   (setup sample_lexer (lit "12" ++ nl ++ lit "ab") true)))).
  apply (next_keeps_session_invariants
           (setup sample_lexer (lit "12" ++ nl ++ lit "ab") true)).
  apply sample_session_covered.
Defined.

Lemma session_ends_within_buffer_length_witness :
  let self := setup sample_lexer (lit "12 ab") true in
  snd (drain 6 self) <> OutOfFuel
  /\ (List.length (snd (fst (drain 6 self)))
      <= Z.to_nat (len (buffer self) - pos self))%nat.
Proof.
  cbv zeta.
  apply (session_ends_within_buffer_length 6
           (setup sample_lexer (lit "12 ab") true)).
  - apply sample_session_covered.
  - exact sample_rules_consuming.
  - vm_compute. lia.
Defined.

Lemma empty_match_repeats_forever_witness :
  let self :=
    setup (set_rules blank_lexer [(lit "NUM", optional_digits_rule)])
      (lit "ab") true in
  drain 3 self
  = (self, repeat (VToken (Token.mk [] (lit "NUM") (0, 0))) 3, OutOfFuel).
Proof.
  cbv zeta.
  apply (empty_match_repeats_forever
           (setup (set_rules blank_lexer [(lit "NUM", optional_digits_rule)])
              (lit "ab") true)
           [] [] (lit "NUM") optional_digits_rule
           {| m_start := 0; m_end := 0 |}).
  - reflexivity.
  - reflexivity.
  - vm_compute. reflexivity.
  - constructor.
  - reflexivity.
  - reflexivity.
  - intros c t. reflexivity.
Defined.

Lemma empty_input_yields_nothing_witness :
  snd (fst (drain 3 (setup sample_lexer [] true))) = []
  /\ snd (drain 3 (setup sample_lexer [] true)) = Stopped
  /\ pos (fst (fst (drain 3 (setup sample_lexer [] true)))) = 0.
Proof.
  apply (empty_input_yields_nothing sample_lexer true 2).
  apply class_plus_anchored.
Defined.

Lemma sample_names_distinct : NoDup (map fst (_rules sample_lexer)).
Proof.
  unfold sample_lexer. cbn.
  constructor; [|constructor; [intros []|constructor]].
  intros [H|[]]. discriminate H.
Qed.

Lemma on_match_keeps_names_distinct_witness :
  NoDup (map fst (_rules (fst (on_match sample_compile sample_lexer
                                 (lit "[0-9a-zA-Z]+")
                                 (return_token "DIGIT"))))).
Proof.
  apply on_match_keeps_names_distinct. exact sample_names_distinct.
Defined.

Lemma on_match_stores_rule_under_name_witness :
  _rules (fst (on_match sample_compile sample_lexer (lit "[0-9a-zA-Z]+")
                 (return_token "DIGIT")))
  = [(lit "DIGIT", {| pattern := class_plus is_alnum;
                      action := return_token "DIGIT" |});
     (lit "ID", {| pattern := class_plus is_lower;
                   action := return_token "ID" |})].
Proof.
  destruct (on_match_stores_rule_under_name sample_compile sample_lexer
              (lit "[0-9a-zA-Z]+") (return_token "DIGIT")
              (class_plus is_alnum) eq_refl)
    as (_ & _ & _ & Hplace & _).
  apply (Hplace [] digit_rule
           [(lit "ID", {| pattern := class_plus is_lower;
                          action := return_token "ID" |})]).
  - reflexivity.
  - intros [].
Defined.

Lemma diagnostic_quotes_the_line_of_pos_witness :
  let session := setup sample_lexer (lit "x" ++ nl ++ lit "y #") true in
  let self := skip_ws (fst (__next__ (fst (__next__ session)))) in
  exists before text after,
    buffer self = before ++ text ++ after
    /\ ~ In newline text
    /\ (before = [] \/ exists b, before = b ++ [newline])
    /\ (after = [] \/ exists a, after = newline :: a)
    /\ len before <= pos self <= len before + len text
    /\ newlines before = fst (get_pos self)
    /\ _error self
       = (self,
          Raise (LexerError
                   (diagnostic (fst (get_pos self)) (snd (get_pos self)) text
                      (repeat space (Z.to_nat (snd (get_pos self))))))).
Proof.
  cbv zeta. apply diagnostic_quotes_the_line_of_pos.
  - unfold in_buffer. vm_compute. split; intros H; discriminate H.
  - reflexivity.
Defined.

Lemma token_after_newline_has_column_zero_witness :
  let session := setup sample_lexer (lit "x" ++ nl ++ lit "  y") true in
  let self := fst (__next__ session) in
  snd (__next__ self) = Ok (VToken (Token.mk (lit "y") (lit "ID") (1, 0))).
Proof.
  cbv zeta.
  apply (token_after_newline_has_column_zero
           (fst (__next__
                   (setup sample_lexer (lit "x" ++ nl ++ lit "  y") true)))
           [(lit "DIGIT", digit_rule)] [] (lit "ID")
           {| pattern := class_plus is_lower; action := return_token "ID" |}
           {| m_start := 1; m_end := 4 |} {| m_start := 4; m_end := 5 |}).
  - reflexivity.
  - reflexivity.
  - reflexivity.
  - reflexivity.
  - vm_compute. reflexivity.
  - repeat constructor.
  - reflexivity.
  - intros c t. reflexivity.
Defined.

Lemma line_start_fixed_without_whitespace_skip_witness :
  let self :=
    setup (set_rules blank_lexer [(lit "BLANK", blank_rule)])
      (nl ++ nl ++ lit "  ") false in
  pos (fst (__next__ self)) = 4
  /\ _line_start (fst (__next__ self)) = _line_start self
  /\ _ignore_ws (fst (__next__ self)) = false.
Proof.
  cbv zeta. split; [reflexivity|].
  apply line_start_fixed_without_whitespace_skip.
  - reflexivity.
  - cbn. repeat (constructor; [intros c t; reflexivity|]). constructor.
Defined.

(** X12. In a session that starts with [_line_start] not beyond [pos], as
    the first session of a lexer does, every value yielded is a token whose
    line and column are not negative. *)
Theorem session_positions_not_negative (fuel : nat) (self : Lexer) :
  covered self ->
  _line_start self <= pos self ->
  Forall (fun v => exists t, v = VToken t
                             /\ 0 <= fst (Token.pos t)
                             /\ 0 <= snd (Token.pos t))
    (snd (fst (drain fuel self))).
Proof.
  revert self. induction fuel as [|fuel IH]; intros self Hcov Hls;
    [constructor|].
  pose proof Hcov as (Hws & _ & Hin).
  pose proof (skip_ws_pos self Hws Hin) as Hat.
  pose proof (skip_ws_line_start self Hws Hin Hls) as Hls'.
  unfold in_buffer in Hin. cbn [drain].
  destruct (next_cases self Hcov)
    as [[Hend Hn]|[(e & He & Hn)|(name & m & Hn & Hm)]];
    rewrite Hn.
  - constructor.
  - destruct e; constructor.
  - assert (Hm' : 0 <= m_end m <= len (buffer self)) by lia.
    pose proof (covered_set_pos self (m_end m) Hcov Hm') as Hcov'.
    assert (Hnext : _line_start (set_pos (skip_ws self) (m_end m))
                    <= pos (set_pos (skip_ws self) (m_end m)))
      by (cbn; lia).
    specialize (IH _ Hcov' Hnext).
    destruct (drain fuel _) as [[final tokens] o]. cbn [fst snd] in *.
    constructor; [|exact IH].
    eexists. split; [reflexivity|].
    rewrite get_pos_line_column. cbn [Token.pos fst snd].
    pose proof (newlines_slice_le (buffer (skip_ws self)) 0
                  (pos (skip_ws self))).
    lia.
Qed.

Lemma session_positions_not_negative_witness :
  Forall (fun v => exists t, v = VToken t
                             /\ 0 <= fst (Token.pos t)
                             /\ 0 <= snd (Token.pos t))
    (snd (fst (drain 6 (setup sample_lexer
                          (lit "12" ++ nl ++ lit " ab 7") true)))).
Proof.
  apply session_positions_not_negative.
  - apply sample_session_covered.
  - vm_compute. intros H. discriminate H.
Defined.
